(** * Credit card optimizer: the valuation engine of [creditvaluation.py]

    A shallow embedding of the engine functions [get_reward_rate],
    [apply_rebates], [evaluate_portfolio], [_score_card_approx] and
    [find_best_portfolio], followed by the properties stated about them.

    Modelling conventions.
    - Currency amounts, multipliers and point values are exact rationals
      ([Q]); the rounding of Python floats is not modelled.
    - A Python [dict] is an association list in insertion order with the
      usual [get] / [d[k] = v] behaviour; subscripting a missing key raises
      [KeyError], which the model makes explicit with the [result] type.
    - Keys that the code subscripts unconditionally on a card or a rebate
      ([name], [rewards], [type], [amount], [category]) are record fields
      and constructor arguments; keys read with [.get] are options. *)

From Stdlib Require Import List String ZArith QArith Qminmax Lia Lqa Bool.
From Stdlib Require Import Permutation Sorted.
Import ListNotations.

Open Scope string_scope.
Open Scope list_scope.
Open Scope Q_scope.

(* ------------------------------------------------------------------ *)
(** ** Python helpers *)

Module Py.

(** Exceptions the engine can raise, and computations that may raise. *)
Inductive exn : Type :=
| KeyError (key : string).

Inductive result (A : Type) : Type :=
| Ok (a : A)
| Raise (e : exn).
Arguments Ok {A} a.
Arguments Raise {A} e.

Definition bind {A B} (c : result A) (k : A -> result B) : result B :=
  match c with
  | Ok a => k a
  | Raise e => Raise e
  end.

(** [x > y] and [x < y] on numbers. *)
Definition Qltb (x y : Q) : bool := negb (Qle_bool y x).

(** [min(a, b)]: the first argument unless the second is strictly smaller. *)
Definition min (a b : Q) : Q := if Qltb b a then b else a.

(** Insertion-ordered dictionaries with string keys. *)
Definition dict (V : Type) : Type := list (string * V).

Fixpoint get {V} (d : dict V) (k : string) : option V :=
  match d with
  | [] => None
  | (k', v) :: d' => if String.eqb k k' then Some v else get d' k
  end.

(** [d[k] = v]: overwrite in place, or append a new key at the end. *)
Fixpoint set {V} (d : dict V) (k : string) (v : V) : dict V :=
  match d with
  | [] => [(k, v)]
  | (k', v') :: d' =>
      if String.eqb k k' then (k', v) :: d' else (k', v') :: set d' k v
  end.

Definition keys {V} (d : dict V) : list string := map fst d.

(** Dictionaries keyed by a rebate index. *)
Fixpoint get_idx {V} (d : list (nat * V)) (i : nat) : option V :=
  match d with
  | [] => None
  | (j, v) :: d' => if Nat.eqb i j then Some v else get_idx d' i
  end.

(** [enumerate(l)]. *)
Fixpoint enumerate_from {A} (n : nat) (l : list A) : list (nat * A) :=
  match l with
  | [] => []
  | x :: xs => (n, x) :: enumerate_from (S n) xs
  end.

Definition enumerate {A} (l : list A) : list (nat * A) := enumerate_from 0 l.

(** [l.sort(key=f)]: the stable sort, ascending in the key.  An element
    is inserted in front of the first element whose key is not strictly
    smaller, so that equal keys keep their encounter order. *)
Fixpoint insert_by {A} (key : A -> Q) (x : A) (l : list A) : list A :=
  match l with
  | [] => [x]
  | y :: ys =>
      if Qltb (key y) (key x) then y :: insert_by key x ys else x :: y :: ys
  end.

Definition sort_by {A} (key : A -> Q) (l : list A) : list A :=
  fold_right (insert_by key) [] l.

(** [l[:n]] for an integer [n], counting from the end when negative. *)
Definition slice_to {A} (n : Z) (l : list A) : list A :=
  if (0 <=? n)%Z then firstn (Z.to_nat n) l
  else firstn (Z.to_nat (Z.of_nat (List.length l) + n)) l.

(** [itertools.combinations(l, r)], in its lexicographic order. *)
Fixpoint combinations {A} (l : list A) (r : nat) {struct l} : list (list A) :=
  match r, l with
  | O, _ => [[]]
  | S _, [] => []
  | S r', x :: xs => map (cons x) (combinations xs r') ++ combinations xs r
  end.

(** [sum(l)]. *)
Definition sum (l : list Q) : Q := fold_left Qplus l 0.

End Py.

Notation "x <- c ;; k" := (Py.bind c (fun x => k))
  (at level 61, c at next level, right associativity).

(* ------------------------------------------------------------------ *)
(** ** Data model *)

(** A rebate; [rebate["type"]] selects the variant.  A rebate whose type is
    neither ["category"] nor ["flat"] is skipped by both loops of
    [apply_rebates] but still occupies an index. *)
Inductive Rebate : Type :=
| CategoryRebate (category : string) (amount : Q) (description : option string)
| FlatRebate (amount : Q) (description : option string)
| OtherRebate (type : string).

Record Card : Type := mkCard {
  name : string;
  rewards : Py.dict Q;
  point_value : option Q;
  annual_fee : option Q;
  rebates : list Rebate
}.

(** [card.get("point_value", 0.01)] and [card.get("annual_fee", 0)]. *)
Definition get_point_value (card : Card) : Q :=
  match point_value card with Some v => v | None => 1 # 100 end.

Definition get_annual_fee (card : Card) : Q :=
  match annual_fee card with Some v => v | None => 0 end.

Definition SpendingProfile : Type := Py.dict Q.
Definition RebateUsage : Type := Py.dict (list (nat * bool)).

(** One entry of the per-card rebate ledger. *)
Record LedgerEntry : Type := mkEntry {
  idx : nat;
  description : string;
  is_category : bool;
  used : Q;
  amount : Q;
  applied : bool
}.

Definition Ledger : Type := Py.dict (list LedgerEntry).
Definition Assignment : Type := Py.dict (option string * Q).

Definition categories : list string :=
  ["groceries"; "dining"; "flights_portal"; "hotel"; "gas";
   "online_shopping"; "other"].

(* ------------------------------------------------------------------ *)
(** ** [get_reward_rate] *)

Definition category_map : Py.dict (list string) :=
  [("groceries", ["groceries"; "supermarkets"; "online_grocery"]);
   ("dining", ["dining"; "restaurants"]);
   ("flights_portal", ["flights_portal"; "flights"; "travel_portal"; "other_travel"]);
   ("hotel", ["hotel"; "hotels_portal"; "lodging"; "travel_portal"]);
   ("gas", ["gas"; "transport"; "transit"]);
   ("online_shopping", ["online_shopping"; "top"; "other"]);
   ("other", ["other"])].

Definition keys_to_try (category : string) : list string :=
  match Py.get category_map category with
  | Some aliases => aliases
  | None => ["other"]
  end ++ ["all"].

(** The [for key in keys_to_try] loop: the first key found in [rw]. *)
Fixpoint first_reward (rw : Py.dict Q) (ks : list string) : option Q :=
  match ks with
  | [] => None
  | key :: ks' =>
      match Py.get rw key with
      | Some rate => Some rate
      | None => first_reward rw ks'
      end
  end.

Definition get_reward_rate (card : Card) (category : string) : Q :=
  match first_reward (rewards card) (keys_to_try category) with
  | Some rate => rate
  | None => 1
  end.

(* ------------------------------------------------------------------ *)
(** ** [apply_rebates] *)

(** The tuples [(cat, amount, card, idx, rebate)] gathered in
    [category_rebates]; the rebate itself is only read for its
    description. *)
Record CategoryItem : Type := mkItem {
  item_cat : string;
  item_amount : Q;
  item_card : Card;
  item_idx : nat;
  item_description : option string
}.

Definition card_category_rebates (card : Card) : list CategoryItem :=
  flat_map (fun ir : nat * Rebate =>
              match snd ir with
              | CategoryRebate cat amt d => [mkItem cat amt card (fst ir) d]
              | _ => []
              end)
           (Py.enumerate (rebates card)).

Definition gather_category_rebates (cards : list Card) : list CategoryItem :=
  flat_map card_category_rebates cards.

(** [category_rebates.sort(key=lambda x: -x[1])]. *)
Definition sorted_category_rebates (cards : list Card) : list CategoryItem :=
  Py.sort_by (fun x => - item_amount x) (gather_category_rebates cards).

(** [per_card_details.setdefault(name, [])], and the same followed by
    [.append(entry)]. *)
Definition setdefault_empty (details : Ledger) (nm : string) : Ledger :=
  match Py.get details nm with
  | Some _ => details
  | None => Py.set details nm []
  end.

Definition append_entry (details : Ledger) (nm : string) (e : LedgerEntry) : Ledger :=
  match Py.get details nm with
  | Some l => Py.set details nm (l ++ [e])
  | None => Py.set details nm [e]
  end.

(** The local state of [apply_rebates].  The set [applied_rebates] is
    written but never read and is left out. *)
Record RebateState : Type := mkState {
  remaining_spend : Py.dict Q;
  total_rebate : Q;
  per_card_details : Ledger
}.

Definition or_default {A} (o : option A) (d : A) : A :=
  match o with Some a => a | None => d end.

(** One iteration of the category loop.  [remaining_spend.get(cat, 0.0)]
    tolerates a missing category, [remaining_spend[cat] -= used] does not. *)
Definition category_step (st : RebateState) (it : CategoryItem) : Py.result RebateState :=
  let spent := or_default (Py.get (remaining_spend st) (item_cat it)) 0 in
  let used_now := Py.min spent (item_amount it) in
  let applied_now := Py.Qltb 0 used_now in
  let total := total_rebate st + used_now in
  match Py.get (remaining_spend st) (item_cat it) with
  | None => Py.Raise (Py.KeyError (item_cat it))
  | Some cur =>
      Py.Ok (mkState
               (Py.set (remaining_spend st) (item_cat it) (cur - used_now))
               total
               (append_entry (per_card_details st) (name (item_card it))
                  (mkEntry (item_idx it)
                           (or_default (item_description it) "Category Rebate")
                           true used_now (item_amount it) applied_now)))
  end.

Fixpoint category_loop (st : RebateState) (items : list CategoryItem) : Py.result RebateState :=
  match items with
  | [] => Py.Ok st
  | it :: rest => st' <- category_step st it ;; category_loop st' rest
  end.

(** [rebate_usage.get(card["name"], {}).get(idx, True)]. *)
Definition usage_flag (rebate_usage : RebateUsage) (nm : string) (i : nat) : bool :=
  or_default (Py.get_idx (or_default (Py.get rebate_usage nm) []) i) true.

(** The flat loop.  The list [details] obtained by [setdefault] is the one
    stored in [per_card_details], so appending to it updates the ledger. *)
Definition flat_step (rebate_usage : RebateUsage) (nm : string)
           (acc : Q * Ledger) (ir : nat * Rebate) : Q * Ledger :=
  match snd ir with
  | FlatRebate amt d =>
      let used_flag := usage_flag rebate_usage nm (fst ir) in
      (if used_flag then fst acc + amt else fst acc,
       append_entry (snd acc) nm
         (mkEntry (fst ir) (or_default d "Flat Rebate") false
                  (if used_flag then amt else 0) amt used_flag))
  | _ => acc
  end.

Definition flat_card (rebate_usage : RebateUsage) (acc : Q * Ledger) (card : Card) : Q * Ledger :=
  fold_left (flat_step rebate_usage (name card))
            (Py.enumerate (rebates card))
            (fst acc, setdefault_empty (snd acc) (name card)).

Definition flat_loop (rebate_usage : RebateUsage) (cards : list Card) (acc : Q * Ledger) : Q * Ledger :=
  fold_left (flat_card rebate_usage) cards acc.

Definition apply_rebates (cards : list Card) (annual_spending : SpendingProfile)
           (rebate_usage : RebateUsage) : Py.result (Q * Ledger) :=
  st <- category_loop (mkState annual_spending 0 []) (sorted_category_rebates cards) ;;
  Py.Ok (flat_loop rebate_usage cards (total_rebate st, per_card_details st)).

(* ------------------------------------------------------------------ *)
(** ** [evaluate_portfolio] *)

(** The value a card earns on a category. *)
Definition card_value (card : Card) (cat : string) (spend : Q) : Q :=
  get_reward_rate card cat * spend * get_point_value card.

(** The inner loop over the cards: running best value and best card. *)
Definition best_step (cat : string) (spend : Q) (best : Q * option string) (card : Card)
  : Q * option string :=
  let val := card_value card cat spend in
  if Py.Qltb (fst best) val then (val, Some (name card)) else best.

Definition best_card_for (cards : list Card) (cat : string) (spend : Q) : Q * option string :=
  fold_left (best_step cat spend) cards (0, None).

(** The outer loop over [annual_spending.items()]. *)
Definition reward_step (cards : list Card) (acc : Q * Assignment) (cs : string * Q)
  : Q * Assignment :=
  let best := best_card_for cards (fst cs) (snd cs) in
  (fst acc + fst best, Py.set (snd acc) (fst cs) (snd best, fst best)).

Definition reward_loop (cards : list Card) (annual_spending : SpendingProfile)
  : Q * Assignment :=
  fold_left (reward_step cards) annual_spending (0, []).

Definition total_fees (cards : list Card) : Q :=
  Py.sum (map get_annual_fee cards).

Record Evaluation : Type := mkEval {
  total_net : Q;
  assignment : Assignment;
  ledger : Ledger;
  total_rewards : Q;
  fees : Q;
  (* [total_rebates] is a local of the function; it is kept here so that
     statements can refer to it. *)
  total_rebates : Q
}.

Definition evaluate_portfolio (cards : list Card) (annual_spending : SpendingProfile)
           (rebate_usage : RebateUsage) : Py.result Evaluation :=
  let rw := reward_loop cards annual_spending in
  rb <- apply_rebates cards annual_spending rebate_usage ;;
  let f := total_fees cards in
  Py.Ok (mkEval (fst rw + fst rb - f) (snd rw) (snd rb) (fst rw) f (fst rb)).

(* ------------------------------------------------------------------ *)
(** ** [_score_card_approx] *)

Definition approx_rate (rw : Py.dict Q) (cat : string) : Q :=
  match Py.get rw cat with
  | Some rate => rate
  | None => or_default (first_reward rw [cat; "all"]) 1
  end.

Definition _score_card_approx (card : Card) (annual_spending : SpendingProfile)
           (include_rebates include_offers : bool) : Q :=
  let pv := get_point_value card in
  let score :=
    fold_left (fun s (cs : string * Q) => s + approx_rate (rewards card) (fst cs) * snd cs * pv)
              annual_spending 0 in
  let score :=
    if include_rebates
    then fold_left (fun s r => match r with FlatRebate amt _ => s + amt | _ => s end)
                   (rebates card) score
    else score in
  score - get_annual_fee card.

(* ------------------------------------------------------------------ *)
(** ** [find_best_portfolio] *)

(** The prefilter: the cards the search enumerates. *)
Definition cards_to_consider (credit_cards : list Card) (annual_spending : SpendingProfile)
           (max_cards : option Z) (include_rebates include_offers : bool) : list Card :=
  match max_cards with
  | Some n =>
      if (n <? Z.of_nat (List.length credit_cards))%Z
      then
        let scored :=
          map (fun c => (c, _score_card_approx c annual_spending include_rebates include_offers))
              credit_cards in
        map fst (Py.slice_to n (Py.sort_by (fun x => - snd x) scored))
      else credit_cards
  | None => credit_cards
  end.

Definition max_r (n_cards : nat) (max_portfolio_size : option Z) : Z :=
  match max_portfolio_size with
  | None => Z.of_nat n_cards
  | Some m => Z.min (Z.of_nat n_cards) m
  end.

(** Every subset the two nested loops visit, in the order they visit it:
    [for r in range(1, max_r+1): for subset in combinations(cards, r)]. *)
Definition subsets_in_order (cards : list Card) (max_portfolio_size : option Z)
  : list (list Card) :=
  flat_map (Py.combinations cards)
           (seq 1 (Z.to_nat (max_r (List.length cards) max_portfolio_size))).

Record SearchResult : Type := mkSearch {
  best_portfolio : option (list Card);
  best_val : Q;
  best_assignment : Assignment;
  best_details : Ledger;
  best_rewards : Q;
  best_fees : Q
}.

(** [-1e12, None, {}, {}] and [0, 0]. *)
Definition initial_best : SearchResult :=
  mkSearch None (- (1000000000000 # 1)) [] [] 0 0.

Definition search_step (annual_spending : SpendingProfile) (usage : RebateUsage)
           (best : SearchResult) (subset : list Card) : Py.result SearchResult :=
  ev <- evaluate_portfolio subset annual_spending usage ;;
  Py.Ok (if Py.Qltb (best_val best) (total_net ev)
         then mkSearch (Some subset) (total_net ev) (assignment ev) (ledger ev)
                       (total_rewards ev) (fees ev)
         else best).

Fixpoint search_loop (annual_spending : SpendingProfile) (usage : RebateUsage)
         (best : SearchResult) (subsets : list (list Card)) : Py.result SearchResult :=
  match subsets with
  | [] => Py.Ok best
  | s :: rest =>
      best' <- search_step annual_spending usage best s ;;
      search_loop annual_spending usage best' rest
  end.

(** The elapsed wall-clock time, the last component of the returned tuple,
    is informational and is not modelled. *)
Definition find_best_portfolio (credit_cards : list Card) (annual_spending : SpendingProfile)
           (rebate_usage : RebateUsage) (max_cards max_portfolio_size : option Z)
           (include_rebates include_offers : bool) : Py.result SearchResult :=
  let cands := cards_to_consider credit_cards annual_spending max_cards
                                 include_rebates include_offers in
  search_loop annual_spending (if include_rebates then rebate_usage else [])
              initial_best (subsets_in_order cands max_portfolio_size).

(* ------------------------------------------------------------------ *)
(** ** Definitions used to state the properties *)

(** Plain sums and maxima, by recursion on the list. *)
Fixpoint Qsum (l : list Q) : Q :=
  match l with
  | [] => 0
  | x :: xs => x + Qsum xs
  end.

(** The largest of [floor] and the elements of [l]. *)
Definition max_with_floor (floor : Q) (l : list Q) : Q := fold_right Qmax floor l.

(** The maximum of a list of values; an empty list has none and counts 0. *)
Definition max_of (l : list Q) : Q :=
  match l with
  | [] => 0
  | x :: xs => max_with_floor x xs
  end.

(** Total rewards as "the sum over categories of the maximum over cards of
    rate * spend * point value". *)
Definition sum_of_category_maxima (cards : list Card) (annual_spending : SpendingProfile) : Q :=
  Qsum (map (fun cs : string * Q =>
               max_of (map (fun card => card_value card (fst cs) (snd cs)) cards))
            annual_spending).

(** The same with every category's maximum floored at 0. *)
Definition sum_of_floored_maxima (cards : list Card) (annual_spending : SpendingProfile) : Q :=
  Qsum (map (fun cs : string * Q =>
               max_with_floor 0 (map (fun card => card_value card (fst cs) (snd cs)) cards))
            annual_spending).

(** The rebate a ledger entry of card [nm] with index [i] was made for. *)
Definition find_card (cards : list Card) (nm : string) : option Card :=
  find (fun c => String.eqb (name c) nm) cards.





(** What flat rebates add to the total, read off the ledger. *)
Definition flat_used (details : Ledger) : Q :=
  Qsum (map (fun ne : string * list LedgerEntry =>
               Qsum (map (fun e => if is_category e then 0 else used e) (snd ne)))
            details).

(** The greedy walk over the category rebates as a pure function: the
    remaining spend is a total map, and every rebate takes
    [min(remaining[category], amount)]. *)
Definition spend_of (annual_spending : SpendingProfile) (cat : string) : Q :=
  or_default (Py.get annual_spending cat) 0.

Definition deplete (remaining : string -> Q) (cat : string) (u : Q) : string -> Q :=
  fun k => if String.eqb k cat then remaining k - u else remaining k.

Fixpoint greedy_walk (remaining : string -> Q) (items : list CategoryItem)
  : list (CategoryItem * Q) :=
  match items with
  | [] => []
  | it :: rest =>
      let u := Qmin (remaining (item_cat it)) (item_amount it) in
      (it, u) :: greedy_walk (deplete remaining (item_cat it) u) rest
  end.

Fixpoint remaining_after (remaining : string -> Q) (items : list CategoryItem) : string -> Q :=
  match items with
  | [] => remaining
  | it :: rest =>
      let u := Qmin (remaining (item_cat it)) (item_amount it) in
      remaining_after (deplete remaining (item_cat it) u) rest
  end.

Definition category_entry (iu : CategoryItem * Q) : LedgerEntry :=
  mkEntry (item_idx (fst iu))
          (or_default (item_description (fst iu)) "Category Rebate")
          true (snd iu) (item_amount (fst iu)) (Py.Qltb 0 (snd iu)).

Definition record_walk (walk : list (CategoryItem * Q)) : Ledger :=
  fold_left (fun led iu => append_entry led (name (item_card (fst iu))) (category_entry iu))
            walk [].

(** Every category rebate of the portfolio names a key of the profile. *)
Definition rebate_categories_known (cards : list Card) (annual_spending : SpendingProfile) : Prop :=
  forall it, In it (gather_category_rebates cards) ->
             Py.get annual_spending (item_cat it) <> None.

(** The approximate score used to rank the catalog. *)
Definition approx_score (annual_spending : SpendingProfile) (include_rebates include_offers : bool)
           (c : Card) : Q :=
  _score_card_approx c annual_spending include_rebates include_offers.

(** A remaining-spend dictionary and a total map that agree on its keys. *)
Definition agrees (rem : Py.dict Q) (f : string -> Q) : Prop :=
  forall k v, Py.get rem k = Some v -> f k = v.

(** Order and stability of a sort by key. *)
Definition key_le {A} (key : A -> Q) (a b : A) : Prop := key a <= key b.

(** The elements of [l] whose key equals [v], in their order in [l]. *)
Definition with_key {A} (key : A -> Q) (v : Q) (l : list A) : list A :=
  filter (fun a => Qeq_bool (key a) v) l.

(** The category rebates of amount [v], in their order in [l]. *)
Definition with_amount (v : Q) (l : list CategoryItem) : list CategoryItem :=
  filter (fun it => Qeq_bool (item_amount it) v) l.

Definition amount_ge (a b : CategoryItem) : Prop := item_amount b <= item_amount a.

(** Descending order of the approximate score. *)
Definition score_ge (annual_spending : SpendingProfile) (include_rebates include_offers : bool)
           (a b : Card) : Prop :=
  approx_score annual_spending include_rebates include_offers b
  <= approx_score annual_spending include_rebates include_offers a.

(* ------------------------------------------------------------------ *)
(** ** Example inputs *)

Definition plain_card : Card :=
  mkCard "Plain" [("restaurants", 4 # 1); ("all", 2 # 1)] None None [].

Definition dining_card : Card :=
  mkCard "Diner" [("dining", 3 # 1)] (Some (1 # 100)) (Some (95 # 1)) [].

Definition basic_card : Card :=
  mkCard "Basic" [("all", 1 # 1)] None None [].

Definition streaming_card : Card :=
  mkCard "Streamer" [] None None [CategoryRebate "streaming" (50 # 1) None].

Definition first_diner : Card :=
  mkCard "First" [] None None [CategoryRebate "dining" (300 # 1) None].

Definition second_diner : Card :=
  mkCard "Second" [] None None [CategoryRebate "dining" (300 # 1) None].

Definition dining_250 : SpendingProfile :=
  [("groceries", 0); ("dining", 250 # 1); ("flights_portal", 0); ("hotel", 0);
   ("gas", 0); ("online_shopping", 0); ("other", 0)].


Definition dining_100 : SpendingProfile := [("dining", 100 # 1)].


Definition credit_card : Card :=
  mkCard "Credit" [] None None [FlatRebate (100 # 1) None].

Definition credit_switched_off : RebateUsage := [("Credit", [(0%nat, false)])].

(* ------------------------------------------------------------------ *)
(** ** The callers of the engine *)

(** [d[i] = v] on a dictionary keyed by a rebate index. *)
Fixpoint set_idx {V} (d : list (nat * V)) (i : nat) (v : V) : list (nat * V) :=
  match d with
  | [] => [(i, v)]
  | (j, w) :: d' => if Nat.eqb i j then (j, v) :: d' else (j, w) :: set_idx d' i v
  end.

(** The state update of [toggle_rebate]:
    [self.rebate_usage.setdefault(card, {})[idx] = (state == 2)].  The
    recalculation that follows it is [calculate_and_show]. *)
Definition toggle_rebate (rebate_usage : RebateUsage) (card : string) (i : nat) (state : Z)
  : RebateUsage :=
  Py.set rebate_usage card
         (set_idx (or_default (Py.get rebate_usage card) []) i (state =? 2)%Z).

(** The usage state built in [__init__]: for every card of the catalog,
    [{idx: True for idx, _ in enumerate(card.get("rebates", []))}]. *)
Definition all_rebates_on (card : Card) : list (nat * bool) :=
  fold_left (fun d (ir : nat * Rebate) => set_idx d (fst ir) true)
            (Py.enumerate (rebates card)) [].

Definition initial_rebate_usage (credit_cards : list Card) : RebateUsage :=
  fold_left (fun ru card => Py.set ru (name card) (all_rebates_on card)) credit_cards [].

(** The spending profile built in [calculate_and_show] from the monthly
    amounts read off the form, [inputs cat] being the number entered for
    [cat]: [{cat: float(...) for cat in categories}] and then
    [{cat: val*12 for cat, val in user_spending.items()}]. *)
Definition user_spending (inputs : string -> Q) : Py.dict Q :=
  fold_left (fun d cat => Py.set d cat (inputs cat)) categories [].

Definition annual_spending_of (monthly : Py.dict Q) : SpendingProfile :=
  fold_left (fun d (cv : string * Q) => Py.set d (fst cv) (snd cv * (12 # 1))) monthly [].

Definition MAX_CARDS_TO_CONSIDER : Z := 16.
Definition MAX_PORTFOLIO_SIZE : Z := 4.

(** The search as [calculate_and_show] calls it, with the default limits
    and the two check boxes. *)
Definition calculate (credit_cards : list Card) (inputs : string -> Q)
           (rebate_usage : RebateUsage) (ignore_rebates ignore_offers : bool)
  : Py.result SearchResult :=
  find_best_portfolio credit_cards (annual_spending_of (user_spending inputs)) rebate_usage
                      (Some MAX_CARDS_TO_CONSIDER) (Some MAX_PORTFOLIO_SIZE)
                      (negb ignore_rebates) (negb ignore_offers).

(** The ledger lookup of the rebate table:
    [next((e for e in per_card.get(card_name, []) if e.get("idx") == idx), None)]. *)
Definition find_entry (details : Ledger) (card_name : string) (i : nat) : option LedgerEntry :=
  find (fun e => Nat.eqb (idx e) i) (or_default (Py.get details card_name) []).

(* ------------------------------------------------------------------ *)
(** ** Further definitions used to state properties *)

(** The entries of a ledger, each with the card name it is filed under. *)
Definition ledger_entries (details : Ledger) : list (string * LedgerEntry) :=
  flat_map (fun ne : string * list LedgerEntry => map (pair (fst ne)) (snd ne)) details.

(** The entry the category loop writes for a step of the walk, and the
    entry the flat loop writes for a flat rebate. *)
Definition walk_entries (walk : list (CategoryItem * Q)) : list (string * LedgerEntry) :=
  map (fun iu => (name (item_card (fst iu)), category_entry iu)) walk.

Definition flat_entry (rebate_usage : RebateUsage) (nm : string) (i : nat)
           (amt : Q) (d : option string) : LedgerEntry :=
  mkEntry i (or_default d "Flat Rebate") false
          (if usage_flag rebate_usage nm i then amt else 0) amt
          (usage_flag rebate_usage nm i).

Definition card_flat_entries (rebate_usage : RebateUsage) (card : Card)
  : list (string * LedgerEntry) :=
  flat_map (fun ir : nat * Rebate =>
              match snd ir with
              | FlatRebate amt d => [(name card, flat_entry rebate_usage (name card) (fst ir) amt d)]
              | _ => []
              end)
           (Py.enumerate (rebates card)).

Definition flat_entries (rebate_usage : RebateUsage) (cards : list Card)
  : list (string * LedgerEntry) :=
  flat_map (card_flat_entries rebate_usage) cards.


(** The credit of the flat rebates whose usage flag is on. *)
Definition flat_credit_of (rebate_usage : RebateUsage) (nm : string) (ir : nat * Rebate) : Q :=
  match snd ir with
  | FlatRebate amt _ => if usage_flag rebate_usage nm (fst ir) then amt else 0
  | _ => 0
  end.

Definition card_flat_credit (rebate_usage : RebateUsage) (card : Card) : Q :=
  Qsum (map (flat_credit_of rebate_usage (name card)) (Py.enumerate (rebates card))).

Definition flat_credit (rebate_usage : RebateUsage) (cards : list Card) : Q :=
  Qsum (map (card_flat_credit rebate_usage) cards).


(** What identifies a rebate in the ledger: the card name, the index, the
    kind and the amount. *)
Definition RebateKey : Type := (string * nat * bool * Q)%type.

Definition entry_key (ne : string * LedgerEntry) : RebateKey :=
  (fst ne, idx (snd ne), is_category (snd ne), amount (snd ne)).

Definition card_rebate_keys (card : Card) : list RebateKey :=
  flat_map (fun ir : nat * Rebate =>
              match snd ir with
              | CategoryRebate _ amt _ => [(name card, fst ir, true, amt)]
              | FlatRebate amt _ => [(name card, fst ir, false, amt)]
              | OtherRebate _ => []
              end)
           (Py.enumerate (rebates card)).

Definition rebate_keys (cards : list Card) : list RebateKey :=
  flat_map card_rebate_keys cards.

(** [per_card.get(card_name, [])], and the entries filed under a name in a
    list of named entries. *)
Definition card_entries (details : Ledger) (card_name : string) : list LedgerEntry :=
  or_default (Py.get details card_name) [].

Definition entries_named (nm : string) (l : list (string * LedgerEntry)) : list LedgerEntry :=
  map snd (filter (fun x => String.eqb (fst x) nm) l).

Definition mixed_card : Card :=
  mkCard "Mixed" [] None None
         [FlatRebate (100 # 1) None; CategoryRebate "dining" (300 # 1) None].

(** [s] picks some elements of [l], each position at most once, in order. *)
Inductive subseq {A : Type} : list A -> list A -> Prop :=
| subseq_nil : forall l, subseq [] l
| subseq_take : forall x s l, subseq s l -> subseq (x :: s) (x :: l)
| subseq_skip : forall x s l, subseq s l -> subseq s (x :: l).

(** One size limit allows at least what another allows. *)
Definition size_limit_le (a b : option Z) : Prop :=
  match b with
  | None => True
  | Some mb => match a with Some ma => (ma <= mb)%Z | None => False end
  end.

(** The number of ways to pick [r] of [n] positions. *)
Fixpoint binom (n r : nat) : nat :=
  match r, n with
  | O, _ => 1
  | S _, O => 0
  | S r', S n' => binom n' r' + binom n' r
  end.


(** The amount of a rebate is not negative. *)
Definition rebate_amount_nonneg (r : Rebate) : Prop :=
  match r with
  | CategoryRebate _ amt _ => 0 <= amt
  | FlatRebate amt _ => 0 <= amt
  | OtherRebate _ => True
  end.

(* ------------------------------------------------------------------ *)
(** ** Basic facts: comparisons, dictionaries *)

Lemma Qltb_true (x y : Q) : Py.Qltb x y = true <-> x < y.
Proof.
  unfold Py.Qltb. rewrite negb_true_iff.
  split; intro H.
  - apply Qnot_le_lt. intro Hle. apply Qle_bool_iff in Hle. congruence.
  - destruct (Qle_bool y x) eqn:E; [|reflexivity].
    apply Qle_bool_iff in E. exfalso. apply (Qlt_not_le _ _ H E).
Qed.

Lemma Qltb_false (x y : Q) : Py.Qltb x y = false <-> y <= x.
Proof.
  unfold Py.Qltb. rewrite negb_false_iff. apply Qle_bool_iff.
Qed.

(** Split on a comparison and turn the boolean into the order fact. *)
Ltac case_Qltb x y H :=
  destruct (Py.Qltb x y) eqn:H;
  [apply Qltb_true in H | apply Qltb_false in H].

Lemma min_Qmin (a b : Q) : Py.min a b = Qmin a b.
Proof.
  unfold Py.min, Qmin, GenericMinMax.gmin.
  case_Qltb b a E.
  - apply Qgt_alt in E. now rewrite E.
  - apply Qle_alt in E.
    destruct (a ?= b) eqn:C; try reflexivity. now elim E.
Qed.


Lemma min_le_r (a b : Q) : Py.min a b <= b.
Proof. rewrite min_Qmin. apply Q.le_min_r. Qed.

Lemma get_set_same {V} (d : Py.dict V) k v : Py.get (Py.set d k v) k = Some v.
Proof.
  induction d as [|[k' v'] d IH]; simpl.
  - now rewrite String.eqb_refl.
  - destruct (String.eqb k k') eqn:E; simpl; rewrite E; auto.
Qed.

Lemma get_set_other {V} (d : Py.dict V) k k' v :
  k <> k' -> Py.get (Py.set d k v) k' = Py.get d k'.
Proof.
  intro Hne. induction d as [|[k0 v0] d IH]; simpl.
  - destruct (String.eqb k' k) eqn:E; [apply String.eqb_eq in E; congruence | reflexivity].
  - destruct (String.eqb k k0) eqn:E; simpl.
    + apply String.eqb_eq in E. subst k0.
      destruct (String.eqb k' k) eqn:E'; [apply String.eqb_eq in E'; congruence | reflexivity].
    + now rewrite IH.
Qed.



Lemma get_None_not_key {V} (d : Py.dict V) k :
  Py.get d k = None <-> ~ In k (Py.keys d).
Proof.
  induction d as [|[k0 v0] d IH]; simpl.
  - tauto.
  - destruct (String.eqb k k0) eqn:E.
    + apply String.eqb_eq in E. subst. split; [discriminate | intros H; exfalso; auto].
    + apply String.eqb_neq in E. rewrite IH. split.
      * intros H [H1|H1]; [congruence | auto].
      * intros H H1. apply H. now right.
Qed.

Lemma set_absent {V} (d : Py.dict V) k v :
  Py.get d k = None -> Py.set d k v = d ++ [(k, v)].
Proof.
  induction d as [|[k0 v0] d IH]; simpl; [reflexivity|].
  destruct (String.eqb k k0); [discriminate|].
  intro H. now rewrite IH.
Qed.

(** Sums are compatible with rational equality and with concatenation. *)
Lemma Qsum_app (l l' : list Q) : Qsum (l ++ l') == Qsum l + Qsum l'.
Proof.
  induction l as [|x l IH]; cbn [Qsum app]; [lra|]. rewrite IH. lra.
Qed.



(* ------------------------------------------------------------------ *)
(** ** The stable sort *)

Section StableSort.
Context {A : Type} (key : A -> Q).

Lemma insert_by_perm (x : A) (l : list A) :
  Permutation (Py.insert_by key x l) (x :: l).
Proof.
  induction l as [|y ys IH]; simpl; [reflexivity|].
  destruct (Py.Qltb (key y) (key x)); [|reflexivity].
  rewrite IH. apply perm_swap.
Qed.

Lemma sort_by_perm (l : list A) : Permutation (Py.sort_by key l) l.
Proof.
  induction l as [|x l IH]; simpl; [reflexivity|].
  rewrite insert_by_perm. now constructor.
Qed.

Lemma sort_by_In (l : list A) (x : A) : In x (Py.sort_by key l) <-> In x l.
Proof.
  split; apply Permutation_in; [|symmetry]; apply sort_by_perm.
Qed.


Lemma insert_by_sorted (x : A) (l : list A) :
  StronglySorted (key_le key) l -> StronglySorted (key_le key) (Py.insert_by key x l).
Proof.
  induction 1 as [|y ys Hs IH Hy]; simpl.
  - repeat constructor.
  - destruct (Py.Qltb (key y) (key x)) eqn:E.
    + constructor; [exact IH|].
      apply Qltb_true in E.
      eapply Permutation_Forall; [symmetry; apply insert_by_perm|].
      constructor; [unfold key_le; lra | exact Hy].
    + apply Qltb_false in E.
      constructor; [now constructor|].
      constructor; [exact E|].
      eapply Forall_impl; [|exact Hy].
      unfold key_le. intros a Ha. lra.
Qed.

Lemma sort_by_sorted (l : list A) : StronglySorted (key_le key) (Py.sort_by key l).
Proof.
  induction l as [|x l IH]; simpl; [constructor|].
  now apply insert_by_sorted.
Qed.


Lemma insert_by_with_key (v : Q) (x : A) (l : list A) :
  with_key key v (Py.insert_by key x l) = with_key key v (x :: l).
Proof.
  induction l as [|y ys IH]; [reflexivity|].
  cbn [Py.insert_by].
  destruct (Py.Qltb (key y) (key x)) eqn:E; [|reflexivity].
  apply Qltb_true in E.
  unfold with_key in *. cbn [filter] in *. rewrite IH.
  destruct (Qeq_bool (key x) v) eqn:Ex; [|reflexivity].
  destruct (Qeq_bool (key y) v) eqn:Ey; [|reflexivity].
  apply Qeq_bool_iff in Ex, Ey. lra.
Qed.

Lemma sort_by_stable (v : Q) (l : list A) :
  with_key key v (Py.sort_by key l) = with_key key v l.
Proof.
  induction l as [|x l IH]; [reflexivity|].
  cbn [Py.sort_by fold_right]. rewrite insert_by_with_key.
  fold (Py.sort_by key l). unfold with_key in *. cbn [filter]. now rewrite IH.
Qed.

End StableSort.

(* ------------------------------------------------------------------ *)
(** ** The rate resolver *)

Lemma first_reward_found (rw : Py.dict Q) (pre post : list string) (key : string) (rate : Q) :
  (forall k, In k pre -> Py.get rw k = None) ->
  Py.get rw key = Some rate ->
  first_reward rw (pre ++ key :: post) = Some rate.
Proof.
  induction pre as [|k pre IH]; intros Hpre Hkey; simpl.
  - now rewrite Hkey.
  - rewrite (Hpre k) by now left. apply IH; [|exact Hkey].
    intros k' Hk'. apply Hpre. now right.
Qed.

Lemma first_reward_none (rw : Py.dict Q) (ks : list string) :
  (forall k, In k ks -> Py.get rw k = None) -> first_reward rw ks = None.
Proof.
  induction ks as [|k ks IH]; intro H; simpl; [reflexivity|].
  rewrite (H k) by now left. apply IH. intros k' Hk'. apply H. now right.
Qed.

Lemma first_reward_In (rw : Py.dict Q) (ks : list string) (rate : Q) :
  first_reward rw ks = Some rate -> exists k, In k ks /\ Py.get rw k = Some rate.
Proof.
  induction ks as [|k ks IH]; simpl; [discriminate|].
  destruct (Py.get rw k) eqn:E.
  - intro H. injection H as ->. exists k. auto.
  - intro H. destruct (IH H) as [k' [Hin Hk']]. exists k'. auto.
Qed.

Lemma get_In {V} (d : Py.dict V) k v : Py.get d k = Some v -> In (k, v) d.
Proof.
  induction d as [|[k0 v0] d IH]; simpl; [discriminate|].
  destruct (String.eqb k k0) eqn:E.
  - apply String.eqb_eq in E. subst. intro H. injection H as ->. now left.
  - intro H. right. auto.
Qed.

(** C4: for every card and every canonical category, the rate resolver
    tries the category's alias list in order, then the fallback key [all],
    against the card's rewards and returns the first multiplier found; when
    none of these keys is present it returns 1.  The resolver is a total
    function: no input makes it raise. *)
Theorem get_reward_rate_first_match :
  forall (card : Card) (category : string),
    In category categories ->
    (exists aliases,
        Py.get category_map category = Some aliases /\
        keys_to_try category = aliases ++ ["all"]) /\
    (forall pre key post rate,
        keys_to_try category = pre ++ key :: post ->
        (forall k, In k pre -> Py.get (rewards card) k = None) ->
        Py.get (rewards card) key = Some rate ->
        get_reward_rate card category = rate) /\
    ((forall k, In k (keys_to_try category) -> Py.get (rewards card) k = None) ->
     get_reward_rate card category = 1).
Proof.
  intros card category Hcat. split; [|split].
  - unfold keys_to_try.
    simpl in Hcat.
    repeat (destruct Hcat as [<- | Hcat]; [eexists; split; reflexivity|]).
    contradiction.
  - intros pre key post rate Hk Hpre Hkey.
    unfold get_reward_rate. rewrite Hk.
    now rewrite (first_reward_found _ _ _ _ _ Hpre Hkey).
  - intro Hnone. unfold get_reward_rate.
    now rewrite (first_reward_none _ _ Hnone).
Qed.


Lemma get_reward_rate_first_match_witness :
  get_reward_rate plain_card "dining" = 4 # 1.
Proof.
  destruct (get_reward_rate_first_match plain_card "dining") as [_ [H _]].
  - simpl. tauto.
  - apply (H ["dining"] "restaurants" ["all"] (4 # 1)).
    + reflexivity.
    + intros k [<- | []]. reflexivity.
    + reflexivity.
Defined.

(* ------------------------------------------------------------------ *)
(** ** The best card of a category *)

Lemma get_reward_rate_nonneg (card : Card) (cat : string) :
  (forall k v, In (k, v) (rewards card) -> 0 <= v) ->
  0 <= get_reward_rate card cat.
Proof.
  intro H. unfold get_reward_rate.
  destruct (first_reward (rewards card) (keys_to_try cat)) as [rate|] eqn:E.
  - apply first_reward_In in E. destruct E as [k [_ Hk]].
    apply get_In in Hk. eauto.
  - lra.
Qed.

Lemma card_value_monotone (card : Card) (cat : string) (s1 s2 : Q) :
  0 <= get_reward_rate card cat -> 0 <= get_point_value card ->
  s1 <= s2 -> card_value card cat s1 <= card_value card cat s2.
Proof.
  intros Hr Hp Hs. unfold card_value.
  apply Qmult_le_compat_r; [|exact Hp].
  rewrite (Qmult_comm _ s1), (Qmult_comm _ s2).
  apply Qmult_le_compat_r; assumption.
Qed.

Lemma best_step_monotone (card : Card) (cat : string) (s1 s2 : Q) (b1 b2 : Q * option string) :
  card_value card cat s1 <= card_value card cat s2 ->
  fst b1 <= fst b2 ->
  fst (best_step cat s1 b1 card) <= fst (best_step cat s2 b2 card).
Proof.
  intros Hv Hb. unfold best_step.
  case_Qltb (fst b1) (card_value card cat s1) E1;
    case_Qltb (fst b2) (card_value card cat s2) E2; simpl; lra.
Qed.

Lemma best_fold_monotone (cards : list Card) (cat : string) (s1 s2 : Q) :
  (forall c, In c cards -> card_value c cat s1 <= card_value c cat s2) ->
  forall b1 b2, fst b1 <= fst b2 ->
    fst (fold_left (best_step cat s1) cards b1) <= fst (fold_left (best_step cat s2) cards b2).
Proof.
  induction cards as [|c cards IH]; intros Hall b1 b2 Hb; simpl; [exact Hb|].
  apply IH.
  - intros c' Hc'. apply Hall. now right.
  - apply best_step_monotone; [apply Hall; now left | exact Hb].
Qed.

(** C10: for a fixed catalog whose reward multipliers are non-negative and
    whose point values are positive, and for every canonical category, the
    best-card value of the category is monotonically non-decreasing in the
    spend: it is no larger at [s1] than at [s2] whenever [0 <= s1 <= s2]. *)
Theorem best_card_value_monotone :
  forall (cards : list Card) (cat : string) (s1 s2 : Q),
    (forall c k v, In c cards -> In (k, v) (rewards c) -> 0 <= v) ->
    (forall c v, In c cards -> point_value c = Some v -> 0 < v) ->
    In cat categories ->
    0 <= s1 -> s1 <= s2 ->
    fst (best_card_for cards cat s1) <= fst (best_card_for cards cat s2).
Proof.
  intros cards cat s1 s2 Hrw Hpv _ _ Hs.
  unfold best_card_for. apply best_fold_monotone; [|simpl; lra].
  intros c Hc. apply card_value_monotone; [| |exact Hs].
  - apply get_reward_rate_nonneg. intros k v. now apply Hrw.
  - unfold get_point_value. destruct (point_value c) as [v|] eqn:E.
    + apply Qlt_le_weak. now apply (Hpv c).
    + lra.
Qed.



Lemma best_card_value_monotone_witness :
  fst (best_card_for [dining_card; basic_card] "dining" (1200 # 1))
  <= fst (best_card_for [dining_card; basic_card] "dining" (4800 # 1)).
Proof.
  apply best_card_value_monotone.
  - intros c k v [<- | [<- | []]] [H | []]; injection H as _ <-; discriminate.
  - intros c v [<- | [<- | []]] H; simpl in H; [|discriminate].
    injection H as <-. reflexivity.
  - simpl. tauto.
  - discriminate.
  - discriminate.
Defined.

(* ------------------------------------------------------------------ *)
(** ** The category loop of [apply_rebates] *)

Lemma category_step_ok (st : RebateState) (it : CategoryItem) (cur : Q) :
  Py.get (remaining_spend st) (item_cat it) = Some cur ->
  category_step st it =
  Py.Ok (mkState
           (Py.set (remaining_spend st) (item_cat it) (cur - Py.min cur (item_amount it)))
           (total_rebate st + Py.min cur (item_amount it))
           (append_entry (per_card_details st) (name (item_card it))
              (category_entry (it, Py.min cur (item_amount it))))).
Proof.
  intro H. unfold category_step, category_entry. rewrite H. reflexivity.
Qed.

Lemma category_step_raise (st : RebateState) (it : CategoryItem) :
  Py.get (remaining_spend st) (item_cat it) = None ->
  category_step st it = Py.Raise (Py.KeyError (item_cat it)).
Proof.
  intro H. unfold category_step. now rewrite H.
Qed.

Lemma category_step_keys (st st' : RebateState) (it : CategoryItem) :
  category_step st it = Py.Ok st' ->
  forall k, Py.get (remaining_spend st') k = None <-> Py.get (remaining_spend st) k = None.
Proof.
  intros H k.
  destruct (Py.get (remaining_spend st) (item_cat it)) as [cur|] eqn:E.
  - rewrite (category_step_ok _ _ _ E) in H. injection H as <-. simpl.
    destruct (String.eqb (item_cat it) k) eqn:Ek.
    + apply String.eqb_eq in Ek. subst k. rewrite get_set_same, E.
      split; discriminate.
    + apply String.eqb_neq in Ek. now rewrite get_set_other.
  - rewrite (category_step_raise _ _ E) in H. discriminate.
Qed.

(** A category rebate whose category is not a key of the remaining spend
    makes the loop raise [KeyError]. *)
Lemma category_loop_raises (items : list CategoryItem) :
  forall st it,
    In it items ->
    Py.get (remaining_spend st) (item_cat it) = None ->
    exists k, category_loop st items = Py.Raise (Py.KeyError k) /\
              Py.get (remaining_spend st) k = None.
Proof.
  induction items as [|x items IH]; intros st it Hin Hnone; [contradiction|].
  simpl.
  destruct (category_step st x) as [st'|e] eqn:Ex.
  - simpl. destruct Hin as [-> | Hin].
    + rewrite (category_step_raise _ _ Hnone) in Ex. discriminate.
    + destruct (IH st' it Hin) as [k [Hk Hk']].
      * now apply (category_step_keys _ _ _ Ex).
      * exists k. split; [exact Hk|]. now apply (category_step_keys _ _ _ Ex).
  - simpl.
    destruct (Py.get (remaining_spend st) (item_cat x)) as [cur|] eqn:E.
    + rewrite (category_step_ok _ _ _ E) in Ex. discriminate.
    + rewrite (category_step_raise _ _ E) in Ex. injection Ex as <-.
      exists (item_cat x). auto.
Qed.

(** C8 (as the code behaves): a category rebate whose category is not a key
    of the spending profile does not contribute 0; it makes [apply_rebates]
    raise [KeyError], because [remaining_spend[cat] -= used] subscripts the
    missing key. *)
Theorem apply_rebates_unknown_category_raises :
  forall (cards : list Card) (annual_spending : SpendingProfile) (rebate_usage : RebateUsage)
         (it : CategoryItem),
    In it (gather_category_rebates cards) ->
    Py.get annual_spending (item_cat it) = None ->
    exists k, apply_rebates cards annual_spending rebate_usage = Py.Raise (Py.KeyError k) /\
              Py.get annual_spending k = None.
Proof.
  intros cards sp ru it Hin Hnone.
  unfold apply_rebates.
  destruct (category_loop_raises (sorted_category_rebates cards)
              (mkState sp 0 []) it) as [k [Hk Hk']].
  - unfold sorted_category_rebates. now apply sort_by_In.
  - exact Hnone.
  - exists k. rewrite Hk. auto.
Qed.

Lemma apply_rebates_unknown_category_raises_witness :
  exists k, apply_rebates [streaming_card] [("dining", 100 # 1)] [] = Py.Raise (Py.KeyError k) /\
            Py.get [("dining", 100 # 1)] k = None.
Proof.
  apply (apply_rebates_unknown_category_raises [streaming_card] [("dining", 100 # 1)] []
           (mkItem "streaming" (50 # 1) streaming_card 0 None)).
  - simpl. now left.
  - reflexivity.
Defined.

(** The loop against the pure greedy walk. *)
Lemma agrees_spend_of (sp : SpendingProfile) : agrees sp (spend_of sp).
Proof. intros k v H. unfold spend_of. now rewrite H. Qed.

Lemma category_loop_walk (items : list CategoryItem) :
  forall (st : RebateState) (f : string -> Q),
    agrees (remaining_spend st) f ->
    (forall it, In it items -> Py.get (remaining_spend st) (item_cat it) <> None) ->
    exists st',
      category_loop st items = Py.Ok st' /\
      total_rebate st' = fold_left (fun t iu => t + snd iu) (greedy_walk f items) (total_rebate st) /\
      per_card_details st' =
        fold_left (fun led iu => append_entry led (name (item_card (fst iu))) (category_entry iu))
                  (greedy_walk f items) (per_card_details st) /\
      agrees (remaining_spend st') (remaining_after f items) /\
      (forall k, Py.get (remaining_spend st') k = None <-> Py.get (remaining_spend st) k = None).
Proof.
  induction items as [|x items IH]; intros st f Hag Hknown.
  - exists st. simpl. repeat split; auto.
  - destruct (Py.get (remaining_spend st) (item_cat x)) as [cur|] eqn:E;
      [|exfalso; apply (Hknown x); [now left | exact E]].
    pose proof (category_step_ok _ _ _ E) as Hstep.
    pose proof (Hag _ _ E) as Hf.
    set (u := Py.min cur (item_amount x)) in *.
    set (st1 := mkState (Py.set (remaining_spend st) (item_cat x) (cur - u))
                        (total_rebate st + u)
                        (append_entry (per_card_details st) (name (item_card x))
                                      (category_entry (x, u)))) in *.
    assert (Hu : Qmin (f (item_cat x)) (item_amount x) = u)
      by (unfold u; now rewrite Hf, min_Qmin).
    destruct (IH st1 (deplete f (item_cat x) u)) as [st' [Hl [Ht [Hd [Ha Hk]]]]].
    + intros k v Hk. unfold deplete. simpl in Hk.
      destruct (String.eqb k (item_cat x)) eqn:Ek.
      * apply String.eqb_eq in Ek. subst k. rewrite get_set_same in Hk.
        injection Hk as <-. now rewrite Hf.
      * apply String.eqb_neq in Ek. rewrite get_set_other in Hk by congruence.
        now apply Hag.
    + intros it Hit Hn. apply (category_step_keys _ _ _ Hstep) in Hn.
      apply (Hknown it); [now right | exact Hn].
    + exists st'. cbn [category_loop greedy_walk remaining_after fold_left].
      rewrite Hstep, Hu. cbn [Py.bind fst snd].
      repeat split; try assumption.
      * intro H. apply (category_step_keys _ _ _ Hstep). now apply Hk.
      * intro H. apply Hk. now apply (category_step_keys _ _ _ Hstep).
Qed.

Lemma StronglySorted_impl {A} (R R' : A -> A -> Prop) (l : list A) :
  (forall a b, R a b -> R' a b) -> StronglySorted R l -> StronglySorted R' l.
Proof.
  intros HR. induction 1 as [|x l Hs IH Hx]; constructor; [exact IH|].
  eapply Forall_impl; [|exact Hx]. intros b. apply HR.
Qed.

Lemma Qeq_bool_opp (a v : Q) : Qeq_bool (- a) (- v) = Qeq_bool a v.
Proof.
  destruct (Qeq_bool a v) eqn:E.
  - apply Qeq_bool_iff in E. apply Qeq_bool_iff. lra.
  - destruct (Qeq_bool (- a) (- v)) eqn:E'; [|reflexivity].
    apply Qeq_bool_iff in E'. apply Qeq_bool_neq in E. exfalso. apply E. lra.
Qed.

Lemma sorted_category_rebates_perm (cards : list Card) :
  Permutation (sorted_category_rebates cards) (gather_category_rebates cards).
Proof. apply sort_by_perm. Qed.

Lemma sorted_category_rebates_descending (cards : list Card) :
  StronglySorted amount_ge (sorted_category_rebates cards).
Proof.
  eapply StronglySorted_impl; [|apply sort_by_sorted].
  unfold key_le, amount_ge. intros a b H. lra.
Qed.

Lemma sorted_category_rebates_stable (cards : list Card) (v : Q) :
  with_amount v (sorted_category_rebates cards) = with_amount v (gather_category_rebates cards).
Proof.
  unfold with_amount, sorted_category_rebates.
  pose proof (sort_by_stable (fun x => - item_amount x) (- v) (gather_category_rebates cards)) as H.
  unfold with_key in H.
  rewrite (filter_ext _ (fun it => Qeq_bool (item_amount it) v)) in H
    by (intro a; apply Qeq_bool_opp).
  rewrite (filter_ext (fun a => Qeq_bool (- item_amount a) (- v))
                      (fun it => Qeq_bool (item_amount it) v)) in H
    by (intro a; apply Qeq_bool_opp).
  exact H.
Qed.

(** C3: [apply_rebates] walks the collected category rebates in the order
    of a stable sort by amount, largest first: the processed list is a
    permutation of the collected one, descending in amount, and rebates of
    equal amount keep their encounter order.  When every rebate category is
    a key of the profile, the loop is the greedy walk: each rebate takes
    [used = min(remaining_spend[category], amount)], [used] is added to the
    total and taken off [remaining_spend[category]], and the entry is
    recorded on the owning card.  In particular, with two cards offering a
    300 dining rebate each and a dining spend of 250, the total is 250, all
    of it on the first card; the second card's entry has [used = 0] and
    [applied = false]. *)
Theorem apply_rebates_greedy_largest_first :
  (forall (cards : list Card) (annual_spending : SpendingProfile) (rebate_usage : RebateUsage),
      let items := sorted_category_rebates cards in
      Permutation items (gather_category_rebates cards) /\
      StronglySorted amount_ge items /\
      (forall v, with_amount v items = with_amount v (gather_category_rebates cards)) /\
      (rebate_categories_known cards annual_spending ->
       let walk := greedy_walk (spend_of annual_spending) items in
       exists st,
         category_loop (mkState annual_spending 0 []) items = Py.Ok st /\
         total_rebate st = fold_left (fun t iu => t + snd iu) walk 0 /\
         per_card_details st = record_walk walk /\
         agrees (remaining_spend st) (remaining_after (spend_of annual_spending) items) /\
         apply_rebates cards annual_spending rebate_usage =
           Py.Ok (flat_loop rebate_usage cards (total_rebate st, per_card_details st)))) /\
  apply_rebates [first_diner; second_diner] dining_250 [] =
    Py.Ok (250 # 1,
           [("First", [mkEntry 0 "Category Rebate" true (250 # 1) (300 # 1) true]);
            ("Second", [mkEntry 0 "Category Rebate" true 0 (300 # 1) false])]).
Proof.
  split; [|reflexivity].
  intros cards sp ru items.
  split; [apply sorted_category_rebates_perm|].
  split; [apply sorted_category_rebates_descending|].
  split; [intro v; apply sorted_category_rebates_stable|].
  intros Hknown walk.
  destruct (category_loop_walk items (mkState sp 0 []) (spend_of sp))
    as [st [Hl [Ht [Hd [Ha _]]]]].
  - apply agrees_spend_of.
  - intros it Hit. apply Hknown.
    unfold items, sorted_category_rebates in Hit. now apply sort_by_In in Hit.
  - exists st. unfold apply_rebates. fold items. rewrite Hl.
    repeat split; assumption.
Qed.

Lemma apply_rebates_greedy_largest_first_witness :
  exists st,
    category_loop (mkState dining_250 0 [])
                  (sorted_category_rebates [first_diner; second_diner]) = Py.Ok st /\
    total_rebate st =
      fold_left (fun t iu => t + snd iu)
                (greedy_walk (spend_of dining_250)
                             (sorted_category_rebates [first_diner; second_diner])) 0.
Proof.
  destruct apply_rebates_greedy_largest_first as [H _].
  destruct (H [first_diner; second_diner] dining_250 []) as [_ [_ [_ Hw]]].
  destruct Hw as [st [Hl [Ht _]]].
  - intros it [<- | [<- | []]]; discriminate.
  - exists st. split; assumption.
Defined.

(* ------------------------------------------------------------------ *)
(** ** The ledger and the non-double-counting invariant *)

Lemma enumerate_from_nth {A} (l : list A) :
  forall n i x, In (i, x) (Py.enumerate_from n l) ->
                (n <= i)%nat /\ nth_error l (i - n) = Some x.
Proof.
  induction l as [|y l IH]; intros n i x H; simpl in H; [contradiction|].
  destruct H as [H | H].
  - injection H as <- <-. split; [lia|]. now rewrite Nat.sub_diag.
  - destruct (IH _ _ _ H) as [Hle Hnth]. split; [lia|].
    replace (i - n)%nat with (S (i - S n)) by lia. exact Hnth.
Qed.

Lemma card_category_rebates_spec (card : Card) (it : CategoryItem) :
  In it (card_category_rebates card) ->
  item_card it = card /\
  nth_error (rebates card) (item_idx it) =
    Some (CategoryRebate (item_cat it) (item_amount it) (item_description it)).
Proof.
  unfold card_category_rebates. intro H.
  apply in_flat_map in H. destruct H as [[i r] [Hin Hit]].
  apply enumerate_from_nth in Hin. destruct Hin as [_ Hnth].
  rewrite Nat.sub_0_r in Hnth. simpl in Hit.
  destruct r; try contradiction.
  destruct Hit as [<- | []]. simpl. auto.
Qed.

Lemma gather_category_rebates_spec (cards : list Card) (it : CategoryItem) :
  In it (gather_category_rebates cards) ->
  In (item_card it) cards /\
  nth_error (rebates (item_card it)) (item_idx it) =
    Some (CategoryRebate (item_cat it) (item_amount it) (item_description it)).
Proof.
  unfold gather_category_rebates. intro H.
  apply in_flat_map in H. destruct H as [card [Hc Hit]].
  apply card_category_rebates_spec in Hit. destruct Hit as [<- Hnth]. auto.
Qed.

Lemma find_card_NoDup (cards : list Card) (card : Card) :
  NoDup (map name cards) -> In card cards -> find_card cards (name card) = Some card.
Proof.
  unfold find_card. induction cards as [|c cards IH]; intros Hnd Hin; [contradiction|].
  simpl in *. inversion Hnd as [|? ? Hnotin Hnd']; subst.
  destruct Hin as [-> | Hin].
  - now rewrite String.eqb_refl.
  - destruct (String.eqb (name c) (name card)) eqn:E.
    + apply String.eqb_eq in E. exfalso. apply Hnotin. rewrite E.
      now apply in_map.
    + now apply IH.
Qed.


(** Any additive measure of the ledger grows by the measure of the entry
    that is appended. *)
Section LedgerMeasure.
Variable h : string -> LedgerEntry -> Q.




(** The flat loop only appends entries that are not category entries. *)
Hypothesis h_flat : forall nm e, is_category e = false -> h nm e == 0.




End LedgerMeasure.




(** When every category rebate names a key of the profile, no subscript
    can fail and [apply_rebates] returns. *)
Lemma apply_rebates_returns (cards : list Card) (sp : SpendingProfile) (ru : RebateUsage) :
  rebate_categories_known cards sp ->
  exists total details, apply_rebates cards sp ru = Py.Ok (total, details).
Proof.
  intro Hknown.
  destruct (category_loop_walk (sorted_category_rebates cards) (mkState sp 0 []) (spend_of sp))
    as [st [Hl _]].
  - apply agrees_spend_of.
  - intros it Hit. apply Hknown.
    unfold sorted_category_rebates in Hit. now apply sort_by_In in Hit.
  - unfold apply_rebates. rewrite Hl. cbn [Py.bind].
    destruct (flat_loop ru cards (total_rebate st, per_card_details st)) as [total details].
    now exists total, details.
Qed.



(* ------------------------------------------------------------------ *)
(** ** The portfolio evaluator *)

Lemma Qsum_ext {A} (f g : A -> Q) (l : list A) :
  (forall a, In a l -> f a == g a) -> Qsum (map f l) == Qsum (map g l).
Proof.
  induction l as [|x l IH]; intro H; cbn [map Qsum]; [reflexivity|].
  rewrite (H x) by now left. rewrite IH; [reflexivity|].
  intros a Ha. apply H. now right.
Qed.






Lemma reward_fold_total (cards : list Card) (sp : SpendingProfile) :
  forall acc,
    fst (fold_left (reward_step cards) sp acc)
    == fst acc + Qsum (map (fun cs => fst (best_card_for cards (fst cs) (snd cs))) sp).
Proof.
  induction sp as [|cs sp IH]; intro acc; cbn [fold_left map Qsum]; [lra|].
  rewrite IH. unfold reward_step. cbn [fst]. lra.
Qed.


(** On data within the data model's ranges the floor at 0 is invisible:
    with non-negative card values and at least one card, the floored
    maximum is the maximum. *)
Lemma max_with_floor_le (a : Q) (l : list Q) : a <= max_with_floor a l.
Proof.
  unfold max_with_floor. induction l as [|x l IH]; cbn [fold_right]; [lra|].
  pose proof (Q.le_max_r x (fold_right Qmax a l)). lra.
Qed.

Lemma max_with_floor_mono (a b : Q) (l : list Q) :
  a <= b -> max_with_floor a l <= max_with_floor b l.
Proof.
  intro H. unfold max_with_floor.
  induction l as [|x l IH]; cbn [fold_right]; [exact H|].
  apply Q.max_le_compat_l. exact IH.
Qed.

Lemma max_with_floor_split (a b : Q) (l : list Q) :
  max_with_floor a l <= Qmax a (max_with_floor b l).
Proof.
  unfold max_with_floor.
  induction l as [|y l IH]; cbn [fold_right]; [apply Q.le_max_l|].
  apply Q.max_lub.
  - pose proof (Q.le_max_l y (fold_right Qmax b l)).
    pose proof (Q.le_max_r a (Qmax y (fold_right Qmax b l))). lra.
  - eapply Qle_trans; [exact IH|].
    apply Q.max_le_compat_l. apply Q.le_max_r.
Qed.

Lemma max_floor_nonneg (l : list Q) :
  l <> [] -> (forall v, In v l -> 0 <= v) -> max_with_floor 0 l == max_of l.
Proof.
  destruct l as [|x l]; [congruence|]. intros _ H.
  unfold max_of. cbn [max_with_floor fold_right].
  fold (max_with_floor 0 l). fold (max_with_floor x l).
  assert (Hx : 0 <= x) by (apply H; now left).
  apply Qle_antisym.
  - apply Q.max_lub; [apply max_with_floor_le | now apply max_with_floor_mono].
  - apply max_with_floor_split.
Qed.

Lemma card_value_nonneg (card : Card) (cat : string) (spend : Q) :
  (forall k v, In (k, v) (rewards card) -> 0 <= v) ->
  0 <= get_point_value card -> 0 <= spend ->
  0 <= card_value card cat spend.
Proof.
  intros Hrw Hpv Hs. unfold card_value.
  pose proof (get_reward_rate_nonneg card cat Hrw) as Hr.
  apply Qmult_le_0_compat; [apply Qmult_le_0_compat|]; assumption.
Qed.

Lemma sum_of_maxima_on_valid_data (cards : list Card) (sp : SpendingProfile) :
  cards <> [] ->
  (forall c k v, In c cards -> In (k, v) (rewards c) -> 0 <= v) ->
  (forall c, In c cards -> 0 <= get_point_value c) ->
  (forall k s, In (k, s) sp -> 0 <= s) ->
  sum_of_floored_maxima cards sp == sum_of_category_maxima cards sp.
Proof.
  intros Hne Hrw Hpv Hsp. unfold sum_of_floored_maxima, sum_of_category_maxima.
  apply Qsum_ext. intros [k s] Hks. cbn [fst snd].
  apply max_floor_nonneg.
  - destruct cards; [congruence | discriminate].
  - intros v Hv. apply in_map_iff in Hv. destruct Hv as [c [<- Hc]].
    apply card_value_nonneg; [intros k' v'; now apply Hrw | now apply Hpv | now apply (Hsp k)].
Qed.




(* ------------------------------------------------------------------ *)
(** ** Spending keys outside the canonical set *)



(** The assignment only has keys of the profile. *)
Lemma reward_fold_keys (cards : list Card) (k : string) (sp : SpendingProfile) :
  forall acc,
    Py.get sp k = None -> Py.get (snd acc) k = None ->
    Py.get (snd (fold_left (reward_step cards) sp acc)) k = None.
Proof.
  induction sp as [|[c s] sp IH]; intros acc Hsp Hacc; [exact Hacc|].
  simpl in Hsp. destruct (String.eqb k c) eqn:E; [discriminate|].
  apply String.eqb_neq in E.
  cbn [fold_left]. apply IH; [exact Hsp|].
  unfold reward_step. cbn [fst snd]. rewrite get_set_other by congruence. exact Hacc.
Qed.

Lemma reward_loop_extend (cards : list Card) (sp : SpendingProfile) (k : string) (s : Q) :
  Py.get sp k = None ->
  reward_loop cards (sp ++ [(k, s)]) =
  (fst (reward_loop cards sp) + fst (best_card_for cards k s),
   snd (reward_loop cards sp) ++ [(k, (snd (best_card_for cards k s), fst (best_card_for cards k s)))]).
Proof.
  intro Hk. unfold reward_loop. rewrite fold_left_app. cbn [fold_left].
  unfold reward_step at 1. cbn [fst snd].
  rewrite set_absent; [reflexivity|].
  apply reward_fold_keys; [exact Hk | reflexivity].
Qed.








(* ------------------------------------------------------------------ *)
(** ** The search *)

Lemma combinations_length {A} (l : list A) :
  forall r s, In s (Py.combinations l r) -> List.length s = r.
Proof.
  induction l as [|x l IH]; intros r s H.
  - destruct r; simpl in H; [|contradiction].
    destruct H as [<- | []]. reflexivity.
  - destruct r; simpl in H.
    + destruct H as [<- | []]. reflexivity.
    + apply in_app_or in H. destruct H as [H | H].
      * apply in_map_iff in H. destruct H as [s' [<- Hs']].
        simpl. f_equal. now apply IH.
      * now apply IH.
Qed.

Lemma combinations_incl {A} (l : list A) :
  forall r s, In s (Py.combinations l r) -> incl s l.
Proof.
  induction l as [|x l IH]; intros r s H.
  - destruct r; simpl in H; [|contradiction].
    destruct H as [<- | []]. apply incl_nil_l.
  - destruct r; simpl in H.
    + destruct H as [<- | []]. apply incl_nil_l.
    + apply in_app_or in H. destruct H as [H | H].
      * apply in_map_iff in H. destruct H as [s' [<- Hs']].
        apply incl_cons; [now left|]. apply incl_tl. now apply (IH r).
      * apply incl_tl. now apply (IH (S r)).
Qed.

Lemma combinations_one_nonempty {A} (x : A) (l : list A) :
  Py.combinations (x :: l) 1 <> [].
Proof. simpl. destruct l; discriminate. Qed.

Lemma subsets_in_order_spec (cards : list Card) (mps : option Z) (s : list Card) :
  In s (subsets_in_order cards mps) ->
  (1 <= List.length s)%nat /\
  (Z.of_nat (List.length s) <= max_r (List.length cards) mps)%Z /\
  incl s cards.
Proof.
  unfold subsets_in_order. intro H.
  apply in_flat_map in H. destruct H as [r [Hr Hs]].
  apply in_seq in Hr.
  rewrite (combinations_length _ _ _ Hs).
  split; [lia|]. split; [lia|].
  now apply (combinations_incl _ r).
Qed.

Lemma subsets_in_order_empty (cards : list Card) (mps : option Z) :
  (max_r (List.length cards) mps <= 0)%Z -> subsets_in_order cards mps = [].
Proof.
  intro H. unfold subsets_in_order.
  replace (Z.to_nat (max_r (List.length cards) mps)) with 0%nat by lia.
  reflexivity.
Qed.

Lemma subsets_in_order_nonempty (cards : list Card) (mps : option Z) :
  cards <> [] ->
  (forall m, mps = Some m -> (1 <= m)%Z) ->
  subsets_in_order cards mps <> [].
Proof.
  intros Hne Hm. unfold subsets_in_order.
  destruct cards as [|c cards]; [congruence|].
  assert (Hr : (1 <= max_r (List.length (c :: cards)) mps)%Z).
  { unfold max_r. destruct mps as [m|]; [specialize (Hm m eq_refl)|]; simpl List.length; lia. }
  remember (Z.to_nat (max_r (List.length (c :: cards)) mps)) as n eqn:En.
  destruct n as [|n]; [lia|].
  cbn [seq flat_map]. intro H. apply app_eq_nil in H. destruct H as [H _].
  now apply (combinations_one_nonempty c cards).
Qed.




Lemma cards_to_consider_full (catalog : list Card) (sp : SpendingProfile)
      (mc : option Z) (ir io : bool) :
  (forall n, mc = Some n -> (Z.of_nat (List.length catalog) <= n)%Z) ->
  cards_to_consider catalog sp mc ir io = catalog.
Proof.
  intro H. unfold cards_to_consider. destruct mc as [n|]; [|reflexivity].
  specialize (H n eq_refl).
  destruct (n <? Z.of_nat (List.length catalog))%Z eqn:E; [|reflexivity].
  apply Z.ltb_lt in E. lia.
Qed.

Lemma StronglySorted_map {A B} (R : B -> B -> Prop) (f : A -> B) (l : list A) :
  StronglySorted (fun a b => R (f a) (f b)) l -> StronglySorted R (map f l).
Proof.
  induction 1 as [|x l Hs IH Hx]; simpl; constructor; [exact IH|].
  apply Forall_map. exact Hx.
Qed.

Lemma scored_pairs (sp : SpendingProfile) (ir io : bool) (catalog : list Card) (p : Card * Q) :
  In p (map (fun c => (c, _score_card_approx c sp ir io)) catalog) ->
  snd p = approx_score sp ir io (fst p).
Proof.
  intro H. apply in_map_iff in H. destruct H as [c [<- _]]. reflexivity.
Qed.

Lemma cards_to_consider_top (catalog : list Card) (sp : SpendingProfile)
      (n : Z) (ir io : bool) :
  (0 <= n < Z.of_nat (List.length catalog))%Z ->
  exists ranked,
    Permutation ranked catalog /\
    StronglySorted (score_ge sp ir io) ranked /\
    (forall v, filter (fun c => Qeq_bool (approx_score sp ir io c) v) ranked
               = filter (fun c => Qeq_bool (approx_score sp ir io c) v) catalog) /\
    cards_to_consider catalog sp (Some n) ir io = firstn (Z.to_nat n) ranked /\
    List.length (cards_to_consider catalog sp (Some n) ir io) = Z.to_nat n.
Proof.
  intros [H0 Hn].
  set (scored := map (fun c => (c, _score_card_approx c sp ir io)) catalog).
  set (sorted := Py.sort_by (fun x : Card * Q => - snd x) scored).
  assert (Hscore : forall p, In p sorted -> snd p = approx_score sp ir io (fst p)).
  { intros p Hp. apply sort_by_In in Hp. now apply (scored_pairs sp ir io catalog). }
  assert (Hcands : cards_to_consider catalog sp (Some n) ir io
                   = firstn (Z.to_nat n) (map fst sorted)).
  { unfold cards_to_consider. apply Z.ltb_lt in Hn. rewrite Hn.
    unfold Py.slice_to. apply Z.leb_le in H0. rewrite H0.
    fold scored. fold sorted. symmetry. apply firstn_map. }
  exists (map fst sorted). split; [|split; [|split; [|split]]].
  - unfold sorted. rewrite (sort_by_perm _ scored). unfold scored.
    rewrite map_map. cbn [fst]. now rewrite map_id.
  - apply StronglySorted_map.
    pose proof (sort_by_sorted (fun x : Card * Q => - snd x) scored) as Hs.
    fold sorted in Hs.
    assert (Hall : Forall (fun p => snd p = approx_score sp ir io (fst p)) sorted)
      by (apply Forall_forall; exact Hscore).
    clear Hscore Hcands. induction Hs as [|p l Hs IH Hp]; constructor.
    + apply IH. now inversion Hall.
    + inversion Hall as [|? ? Hp1 Hl1]; subst.
      rewrite Forall_forall in *. intros q Hq.
      unfold score_ge. rewrite <- Hp1, <- (Hl1 q Hq).
      specialize (Hp q Hq). unfold key_le in Hp. lra.
  - intro v.
    pose proof (sort_by_stable (fun x : Card * Q => - snd x) (- v) scored) as Hst.
    fold sorted in Hst. unfold with_key in Hst.
    assert (Hf : forall l : list (Card * Q),
               (forall p, In p l -> snd p = approx_score sp ir io (fst p)) ->
               filter (fun c => Qeq_bool (approx_score sp ir io c) v) (map fst l)
               = map fst (filter (fun a => Qeq_bool (- snd a) (- v)) l)).
    { induction l as [|p l IHl]; intro Hl; [reflexivity|].
      cbn [map filter]. rewrite Qeq_bool_opp, (Hl p) by now left.
      rewrite IHl by (intros q Hq; apply Hl; now right).
      destruct (Qeq_bool (approx_score sp ir io (fst p)) v); reflexivity. }
    rewrite (Hf sorted Hscore), Hst, <- (Hf scored (scored_pairs sp ir io catalog)).
    unfold scored. rewrite map_map. cbn [fst]. now rewrite map_id.
  - exact Hcands.
  - rewrite Hcands, length_firstn, length_map.
    assert (List.length sorted = List.length catalog).
    { unfold sorted. rewrite (Permutation_length (sort_by_perm _ scored)).
      unfold scored. apply length_map. }
    lia.
Qed.

Lemma search_step_ok (sp : SpendingProfile) (u : RebateUsage) (b : SearchResult)
      (s : list Card) (ev : Evaluation) :
  evaluate_portfolio s sp u = Py.Ok ev ->
  search_step sp u b s =
  Py.Ok (if Py.Qltb (best_val b) (total_net ev)
         then mkSearch (Some s) (total_net ev) (assignment ev) (ledger ev)
                       (total_rewards ev) (fees ev)
         else b).
Proof. intro H. unfold search_step. now rewrite H. Qed.

(** What the search loop returns: every subset was evaluated, none beats
    the result, and the result is either the incumbent it started from or
    the first subset that attains the best value. *)
Lemma search_loop_spec (sp : SpendingProfile) (u : RebateUsage) (subsets : list (list Card)) :
  forall b res,
    search_loop sp u b subsets = Py.Ok res ->
    (forall s, In s subsets ->
               exists ev, evaluate_portfolio s sp u = Py.Ok ev /\ total_net ev <= best_val res) /\
    best_val b <= best_val res /\
    (res = b \/
     exists pre P post ev,
       subsets = pre ++ P :: post /\
       evaluate_portfolio P sp u = Py.Ok ev /\
       res = mkSearch (Some P) (total_net ev) (assignment ev) (ledger ev)
                      (total_rewards ev) (fees ev) /\
       best_val b < total_net ev /\
       (forall s ev', In s pre -> evaluate_portfolio s sp u = Py.Ok ev' ->
                      total_net ev' < total_net ev)).
Proof.
  induction subsets as [|s rest IH]; intros b res Hres.
  - simpl in Hres. injection Hres as <-.
    split; [intros s []|]. split; [lra | now left].
  - cbn [search_loop] in Hres.
    destruct (evaluate_portfolio s sp u) as [ev|e] eqn:Hev;
      [|unfold search_step in Hres; rewrite Hev in Hres; discriminate].
    rewrite (search_step_ok sp u b s ev Hev) in Hres. cbn [Py.bind] in Hres.
    set (b' := if Py.Qltb (best_val b) (total_net ev)
               then mkSearch (Some s) (total_net ev) (assignment ev) (ledger ev)
                             (total_rewards ev) (fees ev)
               else b) in *.
    destruct (IH b' res Hres) as [Hall [Hle Hcase]].
    assert (Hb : best_val b <= best_val b' /\ total_net ev <= best_val b').
    { unfold b'. case_Qltb (best_val b) (total_net ev) E; cbn [best_val]; lra. }
    destruct Hb as [Hb1 Hb2].
    split; [|split].
    + intros s' [<- | Hs'].
      * exists ev. split; [exact Hev | lra].
      * now apply Hall.
    + lra.
    + destruct Hcase as [-> | [pre [P [post [evP [Hsplit [HevP [Hr [Hlt Hpre]]]]]]]]].
      * unfold b'. destruct (Py.Qltb (best_val b) (total_net ev)) eqn:E; [|now left].
        right. exists [], s, rest, ev.
        apply Qltb_true in E. repeat split; auto. intros s' ev' [].
      * right. exists (s :: pre), P, post, evP.
        rewrite Hsplit. repeat split; auto; [lra|].
        intros s' ev' [<- | Hs'] Hev'.
        -- rewrite Hev in Hev'. injection Hev' as <-. lra.
        -- now apply (Hpre s').
Qed.

Lemma search_loop_total (sp : SpendingProfile) (u : RebateUsage) (subsets : list (list Card)) :
  (forall s, In s subsets -> exists ev, evaluate_portfolio s sp u = Py.Ok ev) ->
  forall b, exists res, search_loop sp u b subsets = Py.Ok res.
Proof.
  induction subsets as [|s rest IH]; intros Hall b.
  - exists b. reflexivity.
  - destruct (Hall s) as [ev Hev]; [now left|].
    cbn [search_loop]. rewrite (search_step_ok sp u b s ev Hev). cbn [Py.bind].
    apply IH. intros s' Hs'. apply Hall. now right.
Qed.



Lemma cards_to_consider_nil (sp : SpendingProfile) (mc : option Z) (ir io : bool) :
  cards_to_consider [] sp mc ir io = [].
Proof.
  unfold cards_to_consider. destruct mc as [n|]; [|reflexivity].
  destruct (n <? Z.of_nat (List.length (@nil Card)))%Z; [|reflexivity].
  cbn [map Py.sort_by fold_right]. unfold Py.slice_to.
  destruct (0 <=? n)%Z; now rewrite firstn_nil.
Qed.

Lemma cards_to_consider_nonempty (catalog : list Card) (sp : SpendingProfile)
      (mc : option Z) (ir io : bool) :
  catalog <> [] ->
  (forall n, mc = Some n -> (1 <= n)%Z) ->
  cards_to_consider catalog sp mc ir io <> [].
Proof.
  intros Hne Hmc.
  destruct mc as [n|]; [|now rewrite cards_to_consider_full by discriminate].
  specialize (Hmc n eq_refl).
  destruct (Z_lt_le_dec n (Z.of_nat (List.length catalog))) as [Hlt | Hge].
  - destruct (cards_to_consider_top catalog sp n ir io) as [_ [_ [_ [_ [_ Hlen]]]]]; [lia|].
    intro H. rewrite H in Hlen. simpl in Hlen. lia.
  - rewrite cards_to_consider_full; [exact Hne|].
    intros n' Hn'. injection Hn' as <-. exact Hge.
Qed.

(** C7 (as the code behaves): [find_best_portfolio] has no error of its
    own.  On an empty catalog, and on a [max_portfolio_size] that is zero or
    negative, it evaluates no subset and returns the initial record: no
    portfolio, best value -1e12, empty assignment and ledger, rewards and
    fees 0.  On a non-empty catalog with [max_portfolio_size] unset or at
    least 1 (and [max_cards] unset or at least 1) it evaluates at least one
    subset, and it returns a portfolio whenever no evaluation raises and
    some subset has a net value above -1e12. *)
Theorem find_best_portfolio_returns_sentinel :
  (forall sp ru mc mps ir io,
      find_best_portfolio [] sp ru mc mps ir io = Py.Ok initial_best) /\
  (forall catalog sp ru mc m ir io,
      (m <= 0)%Z ->
      find_best_portfolio catalog sp ru mc (Some m) ir io = Py.Ok initial_best) /\
  (best_portfolio initial_best = None /\
   best_val initial_best = - (1000000000000 # 1)) /\
  (forall catalog sp ru mc mps ir io,
      catalog <> [] ->
      (forall m, mps = Some m -> (1 <= m)%Z) ->
      (forall n, mc = Some n -> (1 <= n)%Z) ->
      let subsets := subsets_in_order (cards_to_consider catalog sp mc ir io) mps in
      let usage := if ir then ru else [] in
      subsets <> [] /\
      ((forall s, In s subsets -> exists ev, evaluate_portfolio s sp usage = Py.Ok ev) ->
       (exists s ev, In s subsets /\ evaluate_portfolio s sp usage = Py.Ok ev /\
                     - (1000000000000 # 1) < total_net ev) ->
       exists res P,
         find_best_portfolio catalog sp ru mc mps ir io = Py.Ok res /\
         best_portfolio res = Some P)).
Proof.
  split; [|split; [|split]].
  - intros sp ru mc mps ir io. unfold find_best_portfolio.
    rewrite cards_to_consider_nil, subsets_in_order_empty; [reflexivity|].
    unfold max_r. destruct mps; simpl; lia.
  - intros catalog sp ru mc m ir io Hm. unfold find_best_portfolio.
    rewrite subsets_in_order_empty; [reflexivity|]. unfold max_r. lia.
  - split; reflexivity.
  - intros catalog sp ru mc mps ir io Hne Hmps Hmc subsets usage.
    split.
    + apply subsets_in_order_nonempty; [|exact Hmps].
      now apply cards_to_consider_nonempty.
    + intros Hall [s [ev [Hs [Hev Hnet]]]].
      unfold find_best_portfolio. fold subsets usage.
      destruct (search_loop_total sp usage subsets Hall initial_best) as [res Hres].
      exists res.
      destruct (search_loop_spec sp usage _ _ _ Hres) as [Hbest [_ Hcase]].
      destruct Hcase as [-> | [pre [P [post [evP [_ [_ [Hr _]]]]]]]].
      * exfalso. destruct (Hbest s Hs) as [ev' [Hev' Hle]].
        rewrite Hev in Hev'. injection Hev' as <-.
        cbn [best_val initial_best] in Hle. lra.
      * exists P. split; [exact Hres | now rewrite Hr].
Qed.

Lemma find_best_portfolio_returns_sentinel_witness :
  find_best_portfolio [basic_card] dining_100 [] (Some 16%Z) (Some 0%Z) true true
  = Py.Ok initial_best /\
  exists res P,
    find_best_portfolio [basic_card] dining_100 [] (Some 16%Z) (Some 4%Z) true true = Py.Ok res /\
    best_portfolio res = Some P.
Proof.
  destruct find_best_portfolio_returns_sentinel as [_ [H0 [_ H1]]].
  split.
  - apply H0. lia.
  - destruct (H1 [basic_card] dining_100 [] (Some 16%Z) (Some 4%Z) true true) as [_ H].
    + discriminate.
    + intros m Hm. injection Hm as <-. lia.
    + intros n Hn. injection Hn as <-. lia.
    + apply H.
      * intros s [<- | []]. eexists. reflexivity.
      * exists [basic_card]. eexists. split; [now left|]. split; [reflexivity|].
        reflexivity.
Defined.

(** The claim as stated fails: neither an empty catalog nor a zero
    [max_portfolio_size] produces an error; both return the initial record
    with no portfolio. *)
Lemma find_best_portfolio_raises_no_error :
  find_best_portfolio [] dining_100 [] (Some 16%Z) (Some 4%Z) true true = Py.Ok initial_best /\
  find_best_portfolio [basic_card] dining_100 [] (Some 16%Z) (Some 0%Z) true true
  = Py.Ok initial_best /\
  find_best_portfolio [basic_card] dining_100 [] (Some 16%Z) (Some (-1)%Z) true true
  = Py.Ok initial_best /\
  best_portfolio initial_best = None.
Proof. repeat split; reflexivity. Qed.

(* ------------------------------------------------------------------ *)
(** ** [include_rebates = false] *)

Lemma usage_flag_empty (nm : string) (i : nat) : usage_flag [] nm i = true.
Proof. reflexivity. Qed.

(** C6 (as the code behaves): with [include_rebates = false] the search
    hands the evaluator an empty usage state, and an absent flag defaults
    to "use".  Every flat rebate then counts in full, whatever the caller's
    usage state says: a 100 flat rebate that the caller switched off is
    ignored when rebates are included and credited when they are not. *)
Theorem include_rebates_false_credits_flat_rebates :
  (forall nm i, usage_flag [] nm i = true) /\
  (forall catalog sp ru mc mps io,
      find_best_portfolio catalog sp ru mc mps false io
      = find_best_portfolio catalog sp [] mc mps false io) /\
  (exists res,
      find_best_portfolio [credit_card] dining_100 credit_switched_off
                          (Some 16%Z) (Some 4%Z) false true = Py.Ok res /\
      best_details res = [("Credit", [mkEntry 0 "Flat Rebate" false (100 # 1) (100 # 1) true])] /\
      flat_used (best_details res) == 100 # 1 /\
      best_val res == 101 # 1) /\
  (exists res,
      find_best_portfolio [credit_card] dining_100 credit_switched_off
                          (Some 16%Z) (Some 4%Z) true true = Py.Ok res /\
      best_details res = [("Credit", [mkEntry 0 "Flat Rebate" false 0 (100 # 1) false])] /\
      flat_used (best_details res) == 0 /\
      best_val res == 1 # 1).
Proof.
  split; [exact usage_flag_empty|].
  split; [reflexivity|].
  split; eexists; (split; [reflexivity|]); repeat split; reflexivity.
Qed.

(* ------------------------------------------------------------------ *)
(** ** The ledger as a collection of entries *)


Lemma ledger_entries_app (d d' : Ledger) :
  ledger_entries (d ++ d') = ledger_entries d ++ ledger_entries d'.
Proof. unfold ledger_entries. apply flat_map_app. Qed.

Lemma ledger_entries_set (d : Ledger) (k : string) (l : list LedgerEntry) (e : LedgerEntry) :
  Py.get d k = Some l ->
  Permutation (ledger_entries (Py.set d k (l ++ [e]))) (ledger_entries d ++ [(k, e)]).
Proof.
  induction d as [|[k0 v0] d IH]; simpl; [discriminate|].
  destruct (String.eqb k k0) eqn:E.
  - apply String.eqb_eq in E. subst k0. intro H. injection H as ->.
    unfold ledger_entries. cbn [flat_map fst snd]. rewrite map_app. cbn [map].
    rewrite <- !app_assoc. apply Permutation_app_head. apply Permutation_app_comm.
  - intro H. unfold ledger_entries in *. cbn [flat_map fst snd].
    rewrite <- app_assoc. apply Permutation_app_head. now apply IH.
Qed.

Lemma ledger_entries_append (d : Ledger) (k : string) (e : LedgerEntry) :
  Permutation (ledger_entries (append_entry d k e)) (ledger_entries d ++ [(k, e)]).
Proof.
  unfold append_entry. destruct (Py.get d k) as [l|] eqn:E.
  - now apply ledger_entries_set.
  - rewrite (set_absent _ _ _ E), ledger_entries_app. reflexivity.
Qed.

Lemma ledger_entries_setdefault (d : Ledger) (k : string) :
  ledger_entries (setdefault_empty d k) = ledger_entries d.
Proof.
  unfold setdefault_empty. destruct (Py.get d k) as [l|] eqn:E; [reflexivity|].
  rewrite (set_absent _ _ _ E), ledger_entries_app. apply app_nil_r.
Qed.


Lemma record_entries (walk : list (CategoryItem * Q)) :
  forall led,
    Permutation
      (ledger_entries
         (fold_left (fun led iu => append_entry led (name (item_card (fst iu))) (category_entry iu))
                    walk led))
      (ledger_entries led ++ walk_entries walk).
Proof.
  induction walk as [|iu walk IH]; intro led; cbn [fold_left walk_entries map].
  - now rewrite app_nil_r.
  - rewrite IH, ledger_entries_append, <- app_assoc. reflexivity.
Qed.

Lemma flat_step_entries (ru : RebateUsage) (nm : string) (acc : Q * Ledger) (ir : nat * Rebate) :
  Permutation (ledger_entries (snd (flat_step ru nm acc ir)))
              (ledger_entries (snd acc) ++
               match snd ir with
               | FlatRebate amt d => [(nm, flat_entry ru nm (fst ir) amt d)]
               | _ => []
               end).
Proof.
  unfold flat_step. destruct (snd ir); try now rewrite app_nil_r.
  cbn [snd]. apply ledger_entries_append.
Qed.

Lemma flat_steps_entries (ru : RebateUsage) (nm : string) (l : list (nat * Rebate)) :
  forall acc,
    Permutation (ledger_entries (snd (fold_left (flat_step ru nm) l acc)))
                (ledger_entries (snd acc) ++
                 flat_map (fun ir : nat * Rebate =>
                             match snd ir with
                             | FlatRebate amt d => [(nm, flat_entry ru nm (fst ir) amt d)]
                             | _ => []
                             end) l).
Proof.
  induction l as [|ir l IH]; intro acc; cbn [fold_left flat_map].
  - now rewrite app_nil_r.
  - rewrite IH, flat_step_entries, <- app_assoc. reflexivity.
Qed.

Lemma flat_loop_entries (ru : RebateUsage) (cards : list Card) :
  forall acc,
    Permutation (ledger_entries (snd (flat_loop ru cards acc)))
                (ledger_entries (snd acc) ++ flat_entries ru cards).
Proof.
  unfold flat_loop, flat_entries.
  induction cards as [|c cards IH]; intro acc; cbn [fold_left flat_map].
  - now rewrite app_nil_r.
  - rewrite IH. unfold flat_card at 1. rewrite flat_steps_entries. cbn [snd].
    rewrite ledger_entries_setdefault, <- app_assoc. reflexivity.
Qed.

Lemma flat_step_total (ru : RebateUsage) (nm : string) (acc : Q * Ledger) (ir : nat * Rebate) :
  fst (flat_step ru nm acc ir) == fst acc + flat_credit_of ru nm ir.
Proof.
  unfold flat_step, flat_credit_of. destruct (snd ir); cbn [fst]; try lra.
  destruct (usage_flag ru nm (fst ir)); lra.
Qed.

Lemma flat_steps_total (ru : RebateUsage) (nm : string) (l : list (nat * Rebate)) :
  forall acc,
    fst (fold_left (flat_step ru nm) l acc) == fst acc + Qsum (map (flat_credit_of ru nm) l).
Proof.
  induction l as [|ir l IH]; intro acc; cbn [fold_left map Qsum]; [lra|].
  rewrite IH, flat_step_total. lra.
Qed.

Lemma flat_loop_total (ru : RebateUsage) (cards : list Card) :
  forall acc, fst (flat_loop ru cards acc) == fst acc + flat_credit ru cards.
Proof.
  unfold flat_loop, flat_credit.
  induction cards as [|c cards IH]; intro acc; cbn [fold_left map Qsum]; [lra|].
  rewrite IH. unfold flat_card at 1. rewrite flat_steps_total. cbn [fst].
  unfold card_flat_credit. lra.
Qed.

Lemma fold_plus_snd {A} (walk : list (A * Q)) (a : Q) :
  fold_left (fun t iu => t + snd iu) walk a == a + Qsum (map snd walk).
Proof.
  revert a. induction walk as [|iu walk IH]; intro a; cbn [fold_left map Qsum]; [lra|].
  rewrite IH. lra.
Qed.

Lemma greedy_walk_fst (items : list CategoryItem) :
  forall f, map fst (greedy_walk f items) = items.
Proof.
  induction items as [|it items IH]; intro f; cbn [greedy_walk map fst]; [reflexivity|].
  now rewrite IH.
Qed.

(** A loop that returns met no unknown category. *)
Lemma category_loop_ok_known (items : list CategoryItem) (st st' : RebateState) :
  category_loop st items = Py.Ok st' ->
  forall it, In it items -> Py.get (remaining_spend st) (item_cat it) <> None.
Proof.
  intros Hloop it Hit Hnone.
  destruct (category_loop_raises items st it Hit Hnone) as [k [Hk _]].
  rewrite Hk in Hloop. discriminate.
Qed.

(** What a successful [apply_rebates] returns, in terms of the greedy walk
    and the flat rebates. *)
Lemma apply_rebates_ok_inv (cards : list Card) (sp : SpendingProfile) (ru : RebateUsage)
      (t : Q) (d : Ledger) :
  apply_rebates cards sp ru = Py.Ok (t, d) ->
  let walk := greedy_walk (spend_of sp) (sorted_category_rebates cards) in
  t == Qsum (map snd walk) + flat_credit ru cards /\
  Permutation (ledger_entries d) (walk_entries walk ++ flat_entries ru cards).
Proof.
  intros Happ walk. unfold apply_rebates in Happ.
  destruct (category_loop (mkState sp 0 []) (sorted_category_rebates cards))
    as [st|e] eqn:Hloop; [|discriminate].
  cbn [Py.bind] in Happ. injection Happ as Happ.
  destruct (category_loop_walk (sorted_category_rebates cards) (mkState sp 0 []) (spend_of sp))
    as [st' [Hl [Ht [Hd _]]]].
  - apply agrees_spend_of.
  - apply (category_loop_ok_known _ _ _ Hloop).
  - rewrite Hloop in Hl. injection Hl as <-.
    cbn [total_rebate per_card_details] in Ht, Hd. fold walk in Ht, Hd.
    assert (Ht' : t = fst (flat_loop ru cards (total_rebate st, per_card_details st)))
      by now rewrite Happ.
    assert (Hd' : d = snd (flat_loop ru cards (total_rebate st, per_card_details st)))
      by now rewrite Happ.
    split.
    + rewrite Ht', flat_loop_total. cbn [fst]. rewrite Ht, fold_plus_snd. lra.
    + rewrite Hd', flat_loop_entries. cbn [snd]. rewrite Hd.
      apply Permutation_app_tail.
      pose proof (record_entries walk []) as H. cbn [ledger_entries flat_map app] in H.
      exact H.
Qed.


Lemma card_flat_entries_used (ru : RebateUsage) (nm : string) (l : list (nat * Rebate)) :
  Qsum (map (fun x : string * LedgerEntry => used (snd x))
            (flat_map (fun ir : nat * Rebate =>
                         match snd ir with
                         | FlatRebate amt d => [(nm, flat_entry ru nm (fst ir) amt d)]
                         | _ => []
                         end) l))
  == Qsum (map (flat_credit_of ru nm) l).
Proof.
  induction l as [|ir l IH]; cbn [flat_map map Qsum]; [reflexivity|].
  rewrite map_app, Qsum_app, IH. unfold flat_credit_of at 2.
  destruct (snd ir); cbn [map Qsum snd used flat_entry]; lra.
Qed.

Lemma flat_entries_used (ru : RebateUsage) (cards : list Card) :
  Qsum (map (fun x => used (snd x)) (flat_entries ru cards)) == flat_credit ru cards.
Proof.
  unfold flat_entries, flat_credit.
  induction cards as [|c cards IH]; cbn [flat_map map Qsum]; [reflexivity|].
  rewrite map_app, Qsum_app, IH. unfold card_flat_entries, card_flat_credit.
  now rewrite card_flat_entries_used.
Qed.








(* ------------------------------------------------------------------ *)
(** ** The category rebates in closed form *)




(* ------------------------------------------------------------------ *)
(** ** The ledger holds the rebates of the portfolio *)

Lemma walk_entries_keys (walk : list (CategoryItem * Q)) :
  map entry_key (walk_entries walk)
  = map (fun it => (name (item_card it), item_idx it, true, item_amount it)) (map fst walk).
Proof.
  unfold walk_entries. rewrite !map_map. apply map_ext. intros [it u]. reflexivity.
Qed.

Lemma split_rebate_keys (nm : string) (card : Card) (l : list (nat * Rebate)) :
  Permutation
    (map (fun it => (nm, item_idx it, true, item_amount it))
         (flat_map (fun ir : nat * Rebate =>
                      match snd ir with
                      | CategoryRebate cat amt d => [mkItem cat amt card (fst ir) d]
                      | _ => []
                      end) l)
     ++ flat_map (fun ir : nat * Rebate =>
                    match snd ir with
                    | FlatRebate amt _ => [(nm, fst ir, false, amt)]
                    | _ => []
                    end) l)
    (flat_map (fun ir : nat * Rebate =>
                 match snd ir with
                 | CategoryRebate _ amt _ => [(nm, fst ir, true, amt)]
                 | FlatRebate amt _ => [(nm, fst ir, false, amt)]
                 | OtherRebate _ => []
                 end) l).
Proof.
  induction l as [|[i r] l IH]; cbn [flat_map map app]; [reflexivity|].
  destruct r; cbn [snd fst map app item_idx item_amount].
  - now constructor.
  - rewrite <- Permutation_middle. now constructor.
  - exact IH.
Qed.

Lemma flat_entries_keys (ru : RebateUsage) (nm : string) (l : list (nat * Rebate)) :
  map entry_key
      (flat_map (fun ir : nat * Rebate =>
                   match snd ir with
                   | FlatRebate amt d => [(nm, flat_entry ru nm (fst ir) amt d)]
                   | _ => []
                   end) l)
  = flat_map (fun ir : nat * Rebate =>
                match snd ir with
                | FlatRebate amt _ => [(nm, fst ir, false, amt)]
                | _ => []
                end) l.
Proof.
  induction l as [|[i r] l IH]; cbn [flat_map map]; [reflexivity|].
  rewrite map_app, IH. destruct r; reflexivity.
Qed.

Lemma portfolio_rebate_keys (ru : RebateUsage) (cards : list Card) :
  Permutation
    (map (fun it => (name (item_card it), item_idx it, true, item_amount it))
         (gather_category_rebates cards)
     ++ map entry_key (flat_entries ru cards))
    (rebate_keys cards).
Proof.
  unfold gather_category_rebates, flat_entries, rebate_keys.
  induction cards as [|c cards IH]; cbn [flat_map map app]; [reflexivity|].
  rewrite !map_app.
  rewrite <- (split_rebate_keys (name c) c (Py.enumerate (rebates c))).
  unfold card_flat_entries. rewrite flat_entries_keys.
  rewrite <- IH.
  assert (Hc : map (fun it => (name (item_card it), item_idx it, true, item_amount it))
                   (card_category_rebates c)
               = map (fun it => (name c, item_idx it, true, item_amount it))
                     (card_category_rebates c)).
  { apply map_ext_in. intros it Hit.
    apply card_category_rebates_spec in Hit. destruct Hit as [-> _]. reflexivity. }
  rewrite Hc. unfold card_category_rebates.
  rewrite <- !app_assoc. apply Permutation_app_head.
  rewrite !app_assoc. apply Permutation_app_tail. apply Permutation_app_comm.
Qed.

(** X4: the ledger that [apply_rebates] returns holds one entry for every
    category rebate and every flat rebate of every card of the portfolio,
    carrying the card's name and the rebate's index, kind and amount, and
    it holds no other entry. *)
Theorem ledger_lists_every_rebate_once :
  forall (cards : list Card) (annual_spending : SpendingProfile) (rebate_usage : RebateUsage)
         (total : Q) (details : Ledger),
    apply_rebates cards annual_spending rebate_usage = Py.Ok (total, details) ->
    Permutation (map entry_key (ledger_entries details)) (rebate_keys cards).
Proof.
  intros cards sp ru t d Happ.
  destruct (apply_rebates_ok_inv _ _ _ _ _ Happ) as [_ Hd].
  rewrite (Permutation_map entry_key Hd), map_app.
  rewrite walk_entries_keys, greedy_walk_fst.
  rewrite <- (portfolio_rebate_keys ru cards).
  apply Permutation_app_tail. apply Permutation_map.
  apply sorted_category_rebates_perm.
Qed.

Lemma ledger_lists_every_rebate_once_witness :
  Permutation
    (map entry_key
         (ledger_entries
            [("First", [mkEntry 0 "Category Rebate" true (250 # 1) (300 # 1) true]);
             ("Credit", [mkEntry 0 "Flat Rebate" false (100 # 1) (100 # 1) true])]))
    (rebate_keys [first_diner; credit_card]).
Proof.
  apply (ledger_lists_every_rebate_once [first_diner; credit_card] dining_250 [] (350 # 1)).
  reflexivity.
Defined.

(* ------------------------------------------------------------------ *)
(** ** The entries of one card, and the lookup of the rebate table *)

Lemma card_entries_append (d : Ledger) (k nm : string) (e : LedgerEntry) :
  card_entries (append_entry d k e) nm
  = if String.eqb nm k then card_entries d nm ++ [e] else card_entries d nm.
Proof.
  unfold card_entries, append_entry.
  destruct (String.eqb nm k) eqn:E.
  - apply String.eqb_eq in E. subst nm.
    destruct (Py.get d k) as [l|]; rewrite get_set_same; reflexivity.
  - apply String.eqb_neq in E.
    destruct (Py.get d k) as [l|]; rewrite get_set_other by congruence; reflexivity.
Qed.

Lemma card_entries_setdefault (d : Ledger) (k nm : string) :
  card_entries (setdefault_empty d k) nm = card_entries d nm.
Proof.
  unfold card_entries, setdefault_empty.
  destruct (Py.get d k) as [l|] eqn:E; [reflexivity|].
  destruct (String.eqb nm k) eqn:En.
  - apply String.eqb_eq in En. subst nm. now rewrite get_set_same, E.
  - apply String.eqb_neq in En. now rewrite get_set_other by congruence.
Qed.

Lemma entries_named_app (nm : string) (l l' : list (string * LedgerEntry)) :
  entries_named nm (l ++ l') = entries_named nm l ++ entries_named nm l'.
Proof. unfold entries_named. now rewrite filter_app, map_app. Qed.

Lemma record_card_entries (nm : string) (walk : list (CategoryItem * Q)) :
  forall led,
    card_entries
      (fold_left (fun led iu => append_entry led (name (item_card (fst iu))) (category_entry iu))
                 walk led) nm
    = card_entries led nm ++ entries_named nm (walk_entries walk).
Proof.
  induction walk as [|iu walk IH]; intro led; cbn [fold_left walk_entries map].
  - unfold entries_named. cbn. now rewrite app_nil_r.
  - rewrite IH, card_entries_append.
    fold (walk_entries walk).
    change ((name (item_card (fst iu)), category_entry iu) :: walk_entries walk)
      with ([(name (item_card (fst iu)), category_entry iu)] ++ walk_entries walk).
    rewrite entries_named_app. unfold entries_named at 2. cbn [filter map fst snd].
    rewrite (String.eqb_sym (name (item_card (fst iu))) nm).
    destruct (String.eqb nm (name (item_card (fst iu)))); cbn [map app].
    + now rewrite <- app_assoc.
    + reflexivity.
Qed.

Lemma flat_steps_card_entries (ru : RebateUsage) (k nm : string) (l : list (nat * Rebate)) :
  forall acc,
    card_entries (snd (fold_left (flat_step ru k) l acc)) nm
    = card_entries (snd acc) nm ++
      entries_named nm
        (flat_map (fun ir : nat * Rebate =>
                     match snd ir with
                     | FlatRebate amt d => [(k, flat_entry ru k (fst ir) amt d)]
                     | _ => []
                     end) l).
Proof.
  induction l as [|ir l IH]; intro acc; cbn [fold_left flat_map].
  - unfold entries_named. cbn. now rewrite app_nil_r.
  - rewrite IH, entries_named_app, app_assoc. f_equal.
    unfold flat_step. destruct (snd ir); cbn [snd];
      try (unfold entries_named; cbn; now rewrite app_nil_r).
    rewrite card_entries_append. unfold entries_named. cbn [filter map fst snd].
    rewrite (String.eqb_sym k nm).
    destruct (String.eqb nm k); cbn [map]; [reflexivity | now rewrite app_nil_r].
Qed.

Lemma flat_loop_card_entries (ru : RebateUsage) (nm : string) (cards : list Card) :
  forall acc,
    card_entries (snd (flat_loop ru cards acc)) nm
    = card_entries (snd acc) nm ++ entries_named nm (flat_entries ru cards).
Proof.
  unfold flat_loop, flat_entries.
  induction cards as [|c cards IH]; intro acc; cbn [fold_left flat_map].
  - unfold entries_named. cbn. now rewrite app_nil_r.
  - rewrite IH, entries_named_app, app_assoc. f_equal.
    unfold flat_card. rewrite flat_steps_card_entries. cbn [snd].
    now rewrite card_entries_setdefault.
Qed.

Lemma In_entries_named (nm : string) (e : LedgerEntry) (l : list (string * LedgerEntry)) :
  In e (entries_named nm l) <-> In (nm, e) l.
Proof.
  unfold entries_named. rewrite in_map_iff. split.
  - intros [[k e'] [Heq Hin]]. simpl in Heq. subst e'.
    apply filter_In in Hin. destruct Hin as [Hin Hk]. simpl in Hk.
    apply String.eqb_eq in Hk. now subst k.
  - intro Hin. exists (nm, e). split; [reflexivity|].
    apply filter_In. split; [exact Hin|]. simpl. apply String.eqb_refl.
Qed.

Lemma apply_rebates_card_entries (cards : list Card) (sp : SpendingProfile) (ru : RebateUsage)
      (t : Q) (d : Ledger) (nm : string) :
  apply_rebates cards sp ru = Py.Ok (t, d) ->
  card_entries d nm
  = entries_named nm (walk_entries (greedy_walk (spend_of sp) (sorted_category_rebates cards)))
    ++ entries_named nm (flat_entries ru cards).
Proof.
  intro Happ. unfold apply_rebates in Happ.
  destruct (category_loop (mkState sp 0 []) (sorted_category_rebates cards))
    as [st|e] eqn:Hloop; [|discriminate].
  cbn [Py.bind] in Happ. injection Happ as Happ.
  destruct (category_loop_walk (sorted_category_rebates cards) (mkState sp 0 []) (spend_of sp))
    as [st' [Hl [_ [Hd _]]]].
  - apply agrees_spend_of.
  - apply (category_loop_ok_known _ _ _ Hloop).
  - rewrite Hloop in Hl. injection Hl as <-. cbn [per_card_details] in Hd.
    assert (Hd' : d = snd (flat_loop ru cards (total_rebate st, per_card_details st)))
      by now rewrite Happ.
    rewrite Hd', flat_loop_card_entries. cbn [snd]. f_equal.
    rewrite Hd, record_card_entries. reflexivity.
Qed.

(** X5: under each card name the ledger lists the card's category rebates
    first, in the order in which they were applied (largest amount first),
    and then its flat rebates in index order: the list is a run of category
    entries followed by a run of flat entries. *)
Theorem ledger_layout_per_card :
  forall (cards : list Card) (annual_spending : SpendingProfile) (rebate_usage : RebateUsage)
         (total : Q) (details : Ledger) (card_name : string),
    apply_rebates cards annual_spending rebate_usage = Py.Ok (total, details) ->
    let category_part :=
      entries_named card_name
        (walk_entries (greedy_walk (spend_of annual_spending) (sorted_category_rebates cards))) in
    let flat_part := entries_named card_name (flat_entries rebate_usage cards) in
    card_entries details card_name = category_part ++ flat_part /\
    Forall (fun e => is_category e = true) category_part /\
    Forall (fun e => is_category e = false) flat_part.
Proof.
  intros cards sp ru t d nm Happ category_part flat_part.
  split; [now apply (apply_rebates_card_entries cards sp ru t)|].
  split; apply Forall_forall; intros e He; apply In_entries_named in He.
  - unfold walk_entries in He. apply in_map_iff in He.
    destruct He as [iu [Heq _]]. injection Heq as _ <-. reflexivity.
  - unfold flat_entries in He. apply in_flat_map in He. destruct He as [c [_ He]].
    unfold card_flat_entries in He. apply in_flat_map in He. destruct He as [ir [_ He]].
    destruct (snd ir); try contradiction.
    destruct He as [Heq | []]. injection Heq as _ <-. reflexivity.
Qed.

Lemma ledger_layout_per_card_witness :
  card_entries
    [("Mixed", [mkEntry 1 "Category Rebate" true (250 # 1) (300 # 1) true;
                mkEntry 0 "Flat Rebate" false (100 # 1) (100 # 1) true])] "Mixed"
  = entries_named "Mixed"
      (walk_entries (greedy_walk (spend_of dining_250) (sorted_category_rebates [mixed_card])))
    ++ entries_named "Mixed" (flat_entries [] [mixed_card]).
Proof.
  destruct (ledger_layout_per_card
              [mixed_card] dining_250 [] (350 # 1)
              [("Mixed", [mkEntry 1 "Category Rebate" true (250 # 1) (300 # 1) true;
                          mkEntry 0 "Flat Rebate" false (100 # 1) (100 # 1) true])] "Mixed")
    as [H _].
  - reflexivity.
  - exact H.
Defined.

Lemma enumerate_from_In {A} (l : list A) :
  forall n i x, nth_error l i = Some x -> In ((n + i)%nat, x) (Py.enumerate_from n l).
Proof.
  induction l as [|y l IH]; intros n i x H; [destruct i; discriminate|].
  destruct i as [|i]; simpl in H |- *.
  - injection H as ->. left. f_equal. lia.
  - right. replace (n + S i)%nat with (S n + i)%nat by lia. now apply IH.
Qed.

Lemma enumerate_In {A} (l : list A) (i : nat) (x : A) :
  In (i, x) (Py.enumerate l) <-> nth_error l i = Some x.
Proof.
  unfold Py.enumerate. split; intro H.
  - apply enumerate_from_nth in H. destruct H as [_ H]. now rewrite Nat.sub_0_r in H.
  - apply (enumerate_from_In l 0 i x H).
Qed.

Lemma same_name_same_card (cards : list Card) (c c' : Card) :
  NoDup (map name cards) -> In c cards -> In c' cards -> name c' = name c -> c' = c.
Proof.
  intros Hnd Hc Hc' Hn.
  pose proof (find_card_NoDup cards c Hnd Hc) as H1.
  pose proof (find_card_NoDup cards c' Hnd Hc') as H2.
  rewrite Hn in H2. congruence.
Qed.

(** Where the entries filed under a card's name come from. *)
Lemma category_entry_origin (cards : list Card) (sp : SpendingProfile) (c : Card) (e : LedgerEntry) :
  NoDup (map name cards) -> In c cards ->
  In e (entries_named (name c)
          (walk_entries (greedy_walk (spend_of sp) (sorted_category_rebates cards)))) ->
  is_category e = true /\
  exists cat d, nth_error (rebates c) (idx e) = Some (CategoryRebate cat (amount e) d).
Proof.
  intros Hnd Hc He. apply In_entries_named in He.
  unfold walk_entries in He. apply in_map_iff in He. destruct He as [[it u] [Heq Hin]].
  injection Heq as Hn <-. cbn [fst] in Hn.
  assert (Hit : In it (gather_category_rebates cards)).
  { apply (sort_by_In (fun x => - item_amount x)).
    fold (sorted_category_rebates cards).
    rewrite <- (greedy_walk_fst (sorted_category_rebates cards) (spend_of sp)).
    apply in_map_iff. exists (it, u). auto. }
  apply gather_category_rebates_spec in Hit. destruct Hit as [Hcard Hnth].
  rewrite (same_name_same_card cards c (item_card it) Hnd Hc Hcard Hn) in Hnth.
  split; [reflexivity|]. cbn. eauto.
Qed.

Lemma flat_entry_origin (cards : list Card) (ru : RebateUsage) (c : Card) (e : LedgerEntry) :
  NoDup (map name cards) -> In c cards ->
  In e (entries_named (name c) (flat_entries ru cards)) ->
  exists amt d, nth_error (rebates c) (idx e) = Some (FlatRebate amt d) /\
                e = flat_entry ru (name c) (idx e) amt d.
Proof.
  intros Hnd Hc He. apply In_entries_named in He.
  unfold flat_entries in He. apply in_flat_map in He. destruct He as [c' [Hc' Hin]].
  unfold card_flat_entries in Hin. apply in_flat_map in Hin.
  destruct Hin as [[j r] [Hj Hin]]. cbn [fst snd] in Hin.
  destruct r; try contradiction.
  destruct Hin as [Heq | []]. injection Heq as Hn <-.
  apply enumerate_In in Hj.
  rewrite (same_name_same_card cards c c' Hnd Hc Hc' Hn) in *.
  exists amount0, description0. cbn [idx flat_entry]. auto.
Qed.

Lemma category_entry_present (cards : list Card) (sp : SpendingProfile) (c : Card)
      (i : nat) (cat : string) (amt : Q) (d : option string) :
  In c cards -> nth_error (rebates c) i = Some (CategoryRebate cat amt d) ->
  exists e,
    In e (entries_named (name c)
            (walk_entries (greedy_walk (spend_of sp) (sorted_category_rebates cards)))) /\
    idx e = i.
Proof.
  intros Hc Hnth.
  assert (Hit : In (mkItem cat amt c i d) (sorted_category_rebates cards)).
  { apply sort_by_In. unfold gather_category_rebates. apply in_flat_map.
    exists c. split; [exact Hc|]. unfold card_category_rebates.
    apply in_flat_map. exists (i, CategoryRebate cat amt d).
    split; [now apply enumerate_In | now left]. }
  rewrite <- (greedy_walk_fst (sorted_category_rebates cards) (spend_of sp)) in Hit.
  apply in_map_iff in Hit. destruct Hit as [[it u] [Heq Hin]]. cbn [fst] in Heq. subst it.
  exists (category_entry (mkItem cat amt c i d, u)). split; [|reflexivity].
  apply In_entries_named. unfold walk_entries. apply in_map_iff.
  exists (mkItem cat amt c i d, u). auto.
Qed.

Lemma flat_entry_present (cards : list Card) (ru : RebateUsage) (c : Card)
      (i : nat) (amt : Q) (d : option string) :
  In c cards -> nth_error (rebates c) i = Some (FlatRebate amt d) ->
  In (flat_entry ru (name c) i amt d) (entries_named (name c) (flat_entries ru cards)).
Proof.
  intros Hc Hnth. apply In_entries_named. unfold flat_entries. apply in_flat_map.
  exists c. split; [exact Hc|]. unfold card_flat_entries. apply in_flat_map.
  exists (i, FlatRebate amt d). split; [now apply enumerate_In | now left].
Qed.

Lemma find_present {A} (p : A -> bool) (l : list A) (x : A) :
  In x l -> p x = true -> exists y, find p l = Some y.
Proof.
  intros Hin Hp. destruct (find p l) as [y|] eqn:E; [now exists y|].
  pose proof (find_none p l E x Hin). congruence.
Qed.

(** X6: the lookup that fills the rebate table, the first ledger entry of
    the card's name with the rebate's index, finds the entry of that very
    rebate when the cards have distinct names: for a category rebate a
    category entry of the same amount, for a flat rebate the flat entry
    with its usage flag, and nothing for a rebate of any other type.  So
    the fallback branch of the table is only ever taken for rebates of an
    unknown type. *)
Theorem rebate_table_lookup_finds_own_entry :
  forall (cards : list Card) (annual_spending : SpendingProfile) (rebate_usage : RebateUsage)
         (total : Q) (details : Ledger) (c : Card) (i : nat) (r : Rebate),
    NoDup (map name cards) ->
    In c cards ->
    nth_error (rebates c) i = Some r ->
    apply_rebates cards annual_spending rebate_usage = Py.Ok (total, details) ->
    match r with
    | CategoryRebate _ amt _ =>
        exists e, find_entry details (name c) i = Some e /\
                  idx e = i /\ is_category e = true /\ amount e = amt /\ used e <= amt
    | FlatRebate amt d =>
        find_entry details (name c) i = Some (flat_entry rebate_usage (name c) i amt d)
    | OtherRebate _ => find_entry details (name c) i = None
    end.
Proof.
  intros cards sp ru t d c i r Hnd Hc Hnth Happ.
  unfold find_entry. fold (card_entries d (name c)).
  rewrite (apply_rebates_card_entries cards sp ru t d (name c) Happ).
  set (cat_part := entries_named (name c)
         (walk_entries (greedy_walk (spend_of sp) (sorted_category_rebates cards)))).
  set (flat_part := entries_named (name c) (flat_entries ru cards)).
  assert (Hfound : forall e, find (fun e => Nat.eqb (idx e) i) (cat_part ++ flat_part) = Some e ->
             idx e = i /\
             ((is_category e = true /\
               exists cat ds, r = CategoryRebate cat (amount e) ds /\ In e cat_part) \/
              (exists amt ds, r = FlatRebate amt ds /\ e = flat_entry ru (name c) i amt ds))).
  { intros e He. apply find_some in He. destruct He as [Hin Hidx].
    apply Nat.eqb_eq in Hidx. split; [exact Hidx|].
    apply in_app_or in Hin. destruct Hin as [Hin | Hin].
    - left. destruct (category_entry_origin cards sp c e Hnd Hc Hin) as [Hk [cat [ds Hr]]].
      split; [exact Hk|]. exists cat, ds. split; [congruence | exact Hin].
    - right. destruct (flat_entry_origin cards ru c e Hnd Hc Hin) as [amt [ds [Hr He]]].
      exists amt, ds. rewrite <- Hidx. split; [congruence | exact He]. }
  destruct r as [cat amt ds | amt ds | ty].
  - destruct (category_entry_present cards sp c i cat amt ds Hc Hnth) as [e0 [Hin0 Hidx0]].
    destruct (find_present (fun e => Nat.eqb (idx e) i) (cat_part ++ flat_part) e0) as [e He].
    + apply in_or_app. now left.
    + now apply Nat.eqb_eq.
    + exists e. split; [exact He|].
      destruct (Hfound e He) as [Hidx [[Hk [cat' [ds' [Hr Hin]]]] | [amt' [ds' [Hr _]]]]];
        [|discriminate].
      injection Hr as _ Ha _. repeat split; auto.
      apply In_entries_named in Hin. unfold walk_entries in Hin.
      apply in_map_iff in Hin. destruct Hin as [[it u] [Heq Hw]].
      injection Heq as _ <-. cbn [amount used category_entry fst snd] in *.
      clear - Hw Ha. rewrite Ha.
      revert Hw. generalize (spend_of sp).
      induction (sorted_category_rebates cards) as [|x items IH]; intros f Hw; [contradiction|].
      cbn [greedy_walk] in Hw. destruct Hw as [Heq | Hw].
      * injection Heq as <- <-. apply Q.le_min_r.
      * eapply IH. exact Hw.
  - pose proof (flat_entry_present cards ru c i amt ds Hc Hnth) as Hin0.
    destruct (find_present (fun e => Nat.eqb (idx e) i) (cat_part ++ flat_part)
                           (flat_entry ru (name c) i amt ds)) as [e He].
    + apply in_or_app. now right.
    + cbn. apply Nat.eqb_refl.
    + rewrite He. f_equal.
      destruct (Hfound e He) as [_ [[_ [cat' [ds' [Hr _]]]] | [amt' [ds' [Hr Heq]]]]];
        [discriminate|].
      injection Hr as <- <-. exact Heq.
  - destruct (find (fun e => Nat.eqb (idx e) i) (cat_part ++ flat_part)) as [e|] eqn:He;
      [|reflexivity].
    destruct (Hfound e eq_refl) as [_ [[_ [cat' [ds' [Hr _]]]] | [amt' [ds' [Hr _]]]]];
      discriminate.
Qed.

Lemma rebate_table_lookup_finds_own_entry_witness :
  find_entry
    [("Mixed", [mkEntry 1 "Category Rebate" true (250 # 1) (300 # 1) true;
                mkEntry 0 "Flat Rebate" false (100 # 1) (100 # 1) true])] "Mixed" 0
  = Some (flat_entry [] "Mixed" 0 (100 # 1) None).
Proof.
  apply (rebate_table_lookup_finds_own_entry
           [mixed_card] dining_250 [] (350 # 1)
           [("Mixed", [mkEntry 1 "Category Rebate" true (250 # 1) (300 # 1) true;
                       mkEntry 0 "Flat Rebate" false (100 # 1) (100 # 1) true])]
           mixed_card 0%nat (FlatRebate (100 # 1) None)).
  - repeat constructor. simpl. tauto.
  - now left.
  - reflexivity.
  - reflexivity.
Defined.

(* ------------------------------------------------------------------ *)
(** ** The usage state: toggling, and the state at start-up *)

Lemma get_idx_set_idx_same {V} (d : list (nat * V)) (i : nat) (v : V) :
  Py.get_idx (set_idx d i v) i = Some v.
Proof.
  induction d as [|[j w] d IH]; simpl.
  - now rewrite Nat.eqb_refl.
  - destruct (Nat.eqb i j) eqn:E; simpl; rewrite E; auto.
Qed.

Lemma get_idx_set_idx_other {V} (d : list (nat * V)) (i j : nat) (v : V) :
  i <> j -> Py.get_idx (set_idx d i v) j = Py.get_idx d j.
Proof.
  intro Hne. induction d as [|[k w] d IH]; simpl.
  - destruct (Nat.eqb j i) eqn:E; [apply Nat.eqb_eq in E; congruence | reflexivity].
  - destruct (Nat.eqb i k) eqn:E; simpl.
    + apply Nat.eqb_eq in E. subst k.
      destruct (Nat.eqb j i) eqn:E'; [apply Nat.eqb_eq in E'; congruence | reflexivity].
    + now rewrite IH.
Qed.

Lemma usage_flag_toggle_same (ru : RebateUsage) (card : string) (i : nat) (state : Z) :
  usage_flag (toggle_rebate ru card i state) card i = (state =? 2)%Z.
Proof.
  unfold usage_flag, toggle_rebate. rewrite get_set_same. cbn [or_default].
  now rewrite get_idx_set_idx_same.
Qed.

Lemma usage_flag_toggle_other_index (ru : RebateUsage) (card : string) (i j : nat) (state : Z) :
  j <> i ->
  usage_flag (toggle_rebate ru card i state) card j = usage_flag ru card j.
Proof.
  intro Hne. unfold usage_flag, toggle_rebate. rewrite get_set_same. cbn [or_default].
  rewrite get_idx_set_idx_other by congruence. reflexivity.
Qed.

Lemma usage_flag_toggle_other_card (ru : RebateUsage) (card nm : string) (i j : nat) (state : Z) :
  nm <> card ->
  usage_flag (toggle_rebate ru card i state) nm j = usage_flag ru nm j.
Proof.
  intro Hne. unfold usage_flag, toggle_rebate.
  rewrite get_set_other by congruence. reflexivity.
Qed.

(** X7: after [toggle_rebate(card, idx, state)] the flag that
    [apply_rebates] reads for that card and index is [state == 2], whether
    or not the card or the index had an entry before, and every other flag
    reads as it did. *)
Theorem toggle_rebate_sets_one_flag :
  forall (rebate_usage : RebateUsage) (card : string) (i : nat) (state : Z)
         (nm : string) (j : nat),
    usage_flag (toggle_rebate rebate_usage card i state) nm j
    = if (String.eqb nm card && Nat.eqb j i)%bool
      then (state =? 2)%Z
      else usage_flag rebate_usage nm j.
Proof.
  intros ru card i state nm j.
  destruct (String.eqb nm card) eqn:En; cbn [andb].
  - apply String.eqb_eq in En. subst nm.
    destruct (Nat.eqb j i) eqn:Ej.
    + apply Nat.eqb_eq in Ej. subst j. apply usage_flag_toggle_same.
    + apply Nat.eqb_neq in Ej. now apply usage_flag_toggle_other_index.
  - apply String.eqb_neq in En. now apply usage_flag_toggle_other_card.
Qed.






Lemma flat_step_ext (ru ru' : RebateUsage) :
  (forall nm i, usage_flag ru nm i = usage_flag ru' nm i) ->
  forall nm acc ir, flat_step ru nm acc ir = flat_step ru' nm acc ir.
Proof.
  intros H nm acc ir. unfold flat_step. destruct (snd ir); try reflexivity.
  now rewrite H.
Qed.

Lemma fold_left_ext {A B} (f g : A -> B -> A) (l : list B) :
  (forall a b, f a b = g a b) -> forall a, fold_left f l a = fold_left g l a.
Proof.
  intro H. induction l as [|b l IH]; intro a; simpl; [reflexivity|].
  now rewrite H, IH.
Qed.

Lemma flat_loop_ext (ru ru' : RebateUsage) :
  (forall nm i, usage_flag ru nm i = usage_flag ru' nm i) ->
  forall cards acc, flat_loop ru cards acc = flat_loop ru' cards acc.
Proof.
  intros H cards acc. unfold flat_loop. apply fold_left_ext.
  intros a c. unfold flat_card. apply fold_left_ext. intros a' ir.
  now apply flat_step_ext.
Qed.

Lemma evaluate_portfolio_ext (ru ru' : RebateUsage) :
  (forall nm i, usage_flag ru nm i = usage_flag ru' nm i) ->
  forall cards sp, evaluate_portfolio cards sp ru = evaluate_portfolio cards sp ru'.
Proof.
  intros H cards sp. unfold evaluate_portfolio, apply_rebates.
  destruct (category_loop (mkState sp 0 []) (sorted_category_rebates cards)); [|reflexivity].
  cbn [Py.bind]. now rewrite (flat_loop_ext ru ru' H).
Qed.

Lemma search_loop_ext (ru ru' : RebateUsage) :
  (forall nm i, usage_flag ru nm i = usage_flag ru' nm i) ->
  forall sp subsets best, search_loop sp ru best subsets = search_loop sp ru' best subsets.
Proof.
  intros H sp subsets. induction subsets as [|s rest IH]; intro best; [reflexivity|].
  cbn [search_loop]. unfold search_step. rewrite (evaluate_portfolio_ext ru ru' H).
  destruct (evaluate_portfolio s sp ru'); cbn [Py.bind]; [apply IH | reflexivity].
Qed.

(** X9: the search reads the usage state only through the flag of each
    card name and rebate index: two usage states that give the same flags
    (whatever else they hold, and however absent entries are spelled) give
    the same result, ledger included. *)
Theorem find_best_portfolio_reads_only_flags :
  forall (catalog : list Card) (annual_spending : SpendingProfile)
         (rebate_usage rebate_usage' : RebateUsage)
         (max_cards max_portfolio_size : option Z) (include_rebates include_offers : bool),
    (forall nm i, usage_flag rebate_usage nm i = usage_flag rebate_usage' nm i) ->
    find_best_portfolio catalog annual_spending rebate_usage max_cards max_portfolio_size
                        include_rebates include_offers
    = find_best_portfolio catalog annual_spending rebate_usage' max_cards max_portfolio_size
                          include_rebates include_offers.
Proof.
  intros catalog sp ru ru' mc mps ir io H. unfold find_best_portfolio.
  destruct ir; [|reflexivity]. now apply search_loop_ext.
Qed.

Lemma find_best_portfolio_reads_only_flags_witness :
  find_best_portfolio [credit_card] dining_100 [("Credit", [(0%nat, true)]); ("Gone", [])]
                      None None true true
  = find_best_portfolio [credit_card] dining_100 [] None None true true.
Proof.
  apply find_best_portfolio_reads_only_flags.
  intros nm i. unfold usage_flag. simpl.
  destruct (String.eqb nm "Credit"); simpl.
  - destruct i; reflexivity.
  - destruct (String.eqb nm "Gone"); reflexivity.
Defined.

Lemma all_true_set_idx (d : list (nat * bool)) (i : nat) :
  (forall j b, Py.get_idx d j = Some b -> b = true) ->
  forall j b, Py.get_idx (set_idx d i true) j = Some b -> b = true.
Proof.
  intros H j b. destruct (Nat.eq_dec i j) as [-> | Hne].
  - rewrite get_idx_set_idx_same. congruence.
  - rewrite get_idx_set_idx_other by exact Hne. apply H.
Qed.

Lemma all_rebates_on_true (card : Card) :
  forall j b, Py.get_idx (all_rebates_on card) j = Some b -> b = true.
Proof.
  unfold all_rebates_on.
  assert (H : forall l d, (forall j b, Py.get_idx d j = Some b -> b = true) ->
              forall j b,
                Py.get_idx (fold_left (fun d (ir : nat * Rebate) => set_idx d (fst ir) true) l d) j
                = Some b -> b = true).
  { induction l as [|ir l IH]; intros d Hd; [exact Hd|].
    cbn [fold_left]. apply IH. now apply all_true_set_idx. }
  apply H. intros j b. discriminate.
Qed.

Lemma initial_rebate_usage_flags (catalog : list Card) (nm : string) (i : nat) :
  usage_flag (initial_rebate_usage catalog) nm i = true.
Proof.
  unfold initial_rebate_usage.
  assert (H : forall l ru,
              (forall k m, Py.get ru k = Some m ->
                           forall j b, Py.get_idx m j = Some b -> b = true) ->
              forall k m,
                Py.get (fold_left (fun ru card => Py.set ru (name card) (all_rebates_on card)) l ru) k
                = Some m ->
                forall j b, Py.get_idx m j = Some b -> b = true).
  { induction l as [|c l IH]; intros ru Hru; [exact Hru|].
    cbn [fold_left]. apply IH. intros k m Hk.
    destruct (String.eqb (name c) k) eqn:E.
    - apply String.eqb_eq in E. subst k. rewrite get_set_same in Hk.
      injection Hk as <-. apply all_rebates_on_true.
    - apply String.eqb_neq in E. rewrite get_set_other in Hk by exact E. now apply (Hru k). }
  unfold usage_flag.
  destruct (Py.get (fold_left (fun ru card => Py.set ru (name card) (all_rebates_on card))
                              catalog []) nm) as [m|] eqn:Em; cbn [or_default]; [|reflexivity].
  destruct (Py.get_idx m i) as [b|] eqn:Eb; cbn [or_default]; [|reflexivity].
  eapply (H catalog []); [discriminate | exact Em | exact Eb].
Qed.

(** X10: the usage state built at start-up switches every rebate on.  As an
    empty usage state reads the same way, a catalog small enough to skip
    the prefilter gives the same result with "Ignore Rebates" ticked as
    with it unticked, until the user switches a rebate off. *)
Theorem ignore_rebates_is_idle_at_start_up :
  forall (catalog : list Card) (inputs : string -> Q) (ignore_offers : bool),
    (forall nm i, usage_flag (initial_rebate_usage catalog) nm i = true) /\
    ((Z.of_nat (List.length catalog) <= MAX_CARDS_TO_CONSIDER)%Z ->
     calculate catalog inputs (initial_rebate_usage catalog) true ignore_offers
     = calculate catalog inputs (initial_rebate_usage catalog) false ignore_offers).
Proof.
  intros catalog inputs io. split; [apply initial_rebate_usage_flags|].
  intro Hlen. unfold calculate, find_best_portfolio. cbn [negb].
  rewrite !cards_to_consider_full
    by (intros n Hn; injection Hn as <-; exact Hlen).
  apply search_loop_ext. intros nm i.
  now rewrite initial_rebate_usage_flags.
Qed.

Lemma ignore_rebates_is_idle_at_start_up_witness :
  calculate [credit_card; dining_card] (fun _ => 100 # 1)
            (initial_rebate_usage [credit_card; dining_card]) true false
  = calculate [credit_card; dining_card] (fun _ => 100 # 1)
              (initial_rebate_usage [credit_card; dining_card]) false false.
Proof.
  destruct (ignore_rebates_is_idle_at_start_up
              [credit_card; dining_card] (fun _ => 100 # 1) false) as [_ H].
  apply H. unfold MAX_CARDS_TO_CONSIDER. simpl. lia.
Defined.

(* ------------------------------------------------------------------ *)
(** ** When the search returns *)

Lemma gather_incl (s cards : list Card) (it : CategoryItem) :
  incl s cards -> In it (gather_category_rebates s) -> In it (gather_category_rebates cards).
Proof.
  unfold gather_category_rebates. intros Hincl Hit.
  apply in_flat_map in Hit. destruct Hit as [c [Hc Hit]].
  apply in_flat_map. exists c. split; [now apply Hincl | exact Hit].
Qed.

Lemma evaluate_portfolio_returns (cards : list Card) (sp : SpendingProfile) (ru : RebateUsage) :
  rebate_categories_known cards sp ->
  exists ev, evaluate_portfolio cards sp ru = Py.Ok ev.
Proof.
  intro H. destruct (apply_rebates_returns cards sp ru H) as [t [d Happ]].
  unfold evaluate_portfolio. rewrite Happ. cbn [Py.bind]. eexists. reflexivity.
Qed.

Lemma search_loop_raises (sp : SpendingProfile) (u : RebateUsage) (subsets : list (list Card)) :
  forall best s e,
    In s subsets -> evaluate_portfolio s sp u = Py.Raise e ->
    exists e', search_loop sp u best subsets = Py.Raise e'.
Proof.
  induction subsets as [|x rest IH]; intros best s e Hin Hev; [contradiction|].
  cbn [search_loop]. unfold search_step.
  destruct (evaluate_portfolio x sp u) as [ev|e0] eqn:Ex; cbn [Py.bind].
  - destruct Hin as [-> | Hin]; [congruence|]. eapply IH; eauto.
  - now exists e0.
Qed.

Lemma singleton_in_combinations {A} (c : A) (l : list A) :
  In c l -> In [c] (Py.combinations l 1).
Proof.
  induction l as [|x l IH]; intro H; [contradiction|].
  cbn [Py.combinations]. apply in_or_app. destruct H as [-> | H].
  - left. apply in_map_iff. exists []. split; [reflexivity|].
    destruct l; now left.
  - right. now apply IH.
Qed.

Lemma singleton_in_subsets (cards : list Card) (mps : option Z) (c : Card) :
  (forall m, mps = Some m -> (1 <= m)%Z) ->
  In c cards -> In [c] (subsets_in_order cards mps).
Proof.
  intros Hm Hc. unfold subsets_in_order. apply in_flat_map.
  exists 1%nat. split; [|now apply singleton_in_combinations].
  apply in_seq.
  assert (1 <= max_r (List.length cards) mps)%Z.
  { destruct cards as [|x cards]; [contradiction|].
    unfold max_r. destruct mps as [m|]; [specialize (Hm m eq_refl)|]; simpl List.length; lia. }
  lia.
Qed.

Lemma evaluate_portfolio_raises (cards : list Card) (sp : SpendingProfile) (ru : RebateUsage)
      (it : CategoryItem) :
  In it (gather_category_rebates cards) ->
  Py.get sp (item_cat it) = None ->
  exists k, evaluate_portfolio cards sp ru = Py.Raise (Py.KeyError k).
Proof.
  intros Hit Hnone.
  destruct (category_loop_raises (sorted_category_rebates cards) (mkState sp 0 []) it)
    as [k [Hk _]].
  - unfold sorted_category_rebates. now apply sort_by_In.
  - exact Hnone.
  - exists k. unfold evaluate_portfolio, apply_rebates. now rewrite Hk.
Qed.

Lemma find_best_portfolio_returns_of_known (catalog : list Card) (sp : SpendingProfile)
      (ru : RebateUsage) (mc mps : option Z) (ir io : bool) :
  rebate_categories_known (cards_to_consider catalog sp mc ir io) sp ->
  exists res, find_best_portfolio catalog sp ru mc mps ir io = Py.Ok res.
Proof.
  intro Hknown. unfold find_best_portfolio. apply search_loop_total. intros s Hs.
  apply evaluate_portfolio_returns. intros it Hit. apply Hknown.
  apply (gather_incl s (cards_to_consider catalog sp mc ir io)); [|exact Hit].
  now destruct (subsets_in_order_spec _ _ _ Hs) as [_ [_ H]].
Qed.

Lemma find_best_portfolio_raises_of_unknown (catalog : list Card) (sp : SpendingProfile)
      (ru : RebateUsage) (mc mps : option Z) (ir io : bool) (it : CategoryItem) :
  (forall m, mps = Some m -> (1 <= m)%Z) ->
  In it (gather_category_rebates (cards_to_consider catalog sp mc ir io)) ->
  Py.get sp (item_cat it) = None ->
  exists e, find_best_portfolio catalog sp ru mc mps ir io = Py.Raise e.
Proof.
  intros Hm Hit Hnone. unfold find_best_portfolio.
  set (cands := cards_to_consider catalog sp mc ir io) in *.
  set (usage := if ir then ru else []).
  unfold gather_category_rebates in Hit. apply in_flat_map in Hit.
  destruct Hit as [c [Hc Hit]].
  destruct (evaluate_portfolio_raises [c] sp usage it) as [k Hk].
  - unfold gather_category_rebates. cbn [flat_map]. now rewrite app_nil_r.
  - exact Hnone.
  - apply (search_loop_raises sp usage (subsets_in_order cands mps) initial_best [c]
                              (Py.KeyError k)).
    + now apply singleton_in_subsets.
    + exact Hk.
Qed.

(** X11: with [max_portfolio_size] unset or at least 1, the search returns
    if and only if every category rebate of every candidate card names a
    key of the spending profile.  One candidate card with a rebate on an
    unknown category makes the whole search raise, even if that card would
    never be chosen; a card that the prefilter drops does no harm. *)
Theorem find_best_portfolio_returns_iff_categories_known :
  forall (catalog : list Card) (annual_spending : SpendingProfile) (rebate_usage : RebateUsage)
         (max_cards max_portfolio_size : option Z) (include_rebates include_offers : bool),
    (forall m, max_portfolio_size = Some m -> (1 <= m)%Z) ->
    ((exists res,
         find_best_portfolio catalog annual_spending rebate_usage max_cards
                             max_portfolio_size include_rebates include_offers = Py.Ok res)
     <->
     rebate_categories_known
       (cards_to_consider catalog annual_spending max_cards include_rebates include_offers)
       annual_spending).
Proof.
  intros catalog sp ru mc mps ir io Hm. split.
  - intros [res Hres] it Hit Hnone.
    destruct (find_best_portfolio_raises_of_unknown catalog sp ru mc mps ir io it Hm Hit Hnone)
      as [e He].
    rewrite He in Hres. discriminate.
  - apply find_best_portfolio_returns_of_known.
Qed.

Lemma find_best_portfolio_returns_iff_categories_known_witness :
  exists res,
    find_best_portfolio [first_diner; credit_card] dining_250 [] None (Some 2%Z) true true
    = Py.Ok res.
Proof.
  apply (find_best_portfolio_returns_iff_categories_known
           [first_diner; credit_card] dining_250 [] None (Some 2%Z) true true).
  - intros m Hm. injection Hm as <-. lia.
  - intros it [<- | []]. discriminate.
Defined.

Lemma annual_spending_of_form (inputs : string -> Q) :
  annual_spending_of (user_spending inputs)
  = map (fun cat => (cat, inputs cat * (12 # 1))) categories.
Proof. reflexivity. Qed.

Lemma get_form_profile (inputs : string -> Q) (k : string) :
  Py.get (annual_spending_of (user_spending inputs)) k <> None <-> In k categories.
Proof.
  rewrite annual_spending_of_form. split.
  - intro H. destruct (Py.get (map (fun cat => (cat, inputs cat * (12 # 1))) categories) k)
      as [v|] eqn:E; [|congruence].
    apply get_In in E. apply in_map_iff in E. destruct E as [c [Heq Hc]].
    injection Heq as -> _. exact Hc.
  - intros Hk Hnone. apply get_None_not_key in Hnone. apply Hnone.
    unfold Py.keys. rewrite map_map. cbn [fst]. now rewrite map_id.
Qed.

(** X12: the spending profile that the form builds has exactly the seven
    canonical categories as keys, each with twelve times the monthly
    amount.  So a recalculation returns a result if and only if every
    category rebate of every candidate card is on a canonical category. *)
Theorem calculate_returns_iff_rebates_canonical :
  forall (catalog : list Card) (inputs : string -> Q) (rebate_usage : RebateUsage)
         (ignore_rebates ignore_offers : bool),
    let profile := annual_spending_of (user_spending inputs) in
    profile = map (fun cat => (cat, inputs cat * (12 # 1))) categories /\
    ((exists res,
         calculate catalog inputs rebate_usage ignore_rebates ignore_offers = Py.Ok res)
     <->
     forall it,
       In it (gather_category_rebates
                (cards_to_consider catalog profile (Some MAX_CARDS_TO_CONSIDER)
                                   (negb ignore_rebates) (negb ignore_offers))) ->
       In (item_cat it) categories).
Proof.
  intros catalog inputs ru igr igo profile.
  split; [apply annual_spending_of_form|].
  unfold calculate. fold profile. split.
  - intros [res Hres] it Hit.
    destruct (Py.get profile (item_cat it)) as [v|] eqn:E.
    + apply (get_form_profile inputs). fold profile. congruence.
    + destruct (find_best_portfolio_raises_of_unknown
                  catalog profile ru (Some MAX_CARDS_TO_CONSIDER) (Some MAX_PORTFOLIO_SIZE)
                  (negb igr) (negb igo) it) as [e He]; try assumption.
      * intros m Hm. injection Hm as <-. unfold MAX_PORTFOLIO_SIZE. lia.
      * rewrite He in Hres. discriminate.
  - intro H. apply find_best_portfolio_returns_of_known.
    intros it Hit. apply (get_form_profile inputs). now apply H.
Qed.

Lemma calculate_returns_iff_rebates_canonical_witness :
  exists res, calculate [first_diner; credit_card] (fun _ => 100 # 1) [] false false = Py.Ok res.
Proof.
  destruct (calculate_returns_iff_rebates_canonical
              [first_diner; credit_card] (fun _ => 100 # 1) [] false false) as [_ H].
  apply H. intros it [<- | []]. simpl. tauto.
Defined.

(* ------------------------------------------------------------------ *)
(** ** What the search enumerates *)

Lemma subseq_length {A} (s l : list A) : subseq s l -> (List.length s <= List.length l)%nat.
Proof. induction 1; simpl; lia. Qed.

Lemma subseq_in_combinations {A} (s l : list A) :
  subseq s l -> In s (Py.combinations l (List.length s)).
Proof.
  induction 1 as [l | x s l _ IH | x s l _ IH].
  - destruct l; now left.
  - cbn [List.length Py.combinations]. apply in_or_app. left. now apply in_map.
  - destruct s as [|y s].
    + now left.
    + cbn [List.length Py.combinations] in *. apply in_or_app. now right.
Qed.

Lemma combinations_subseq {A} (l : list A) :
  forall r s, In s (Py.combinations l r) -> subseq s l.
Proof.
  induction l as [|x l IH]; intros r s H.
  - destruct r; simpl in H; [|contradiction].
    destruct H as [<- | []]. constructor.
  - destruct r; simpl in H.
    + destruct H as [<- | []]. constructor.
    + apply in_app_or in H. destruct H as [H | H].
      * apply in_map_iff in H. destruct H as [s' [<- Hs']].
        apply subseq_take. now apply (IH r).
      * apply subseq_skip. now apply (IH (S r)).
Qed.

Lemma subseq_in_subsets (cards : list Card) (mps : option Z) (s : list Card) :
  subseq s cards ->
  (1 <= List.length s)%nat ->
  (forall m, mps = Some m -> (Z.of_nat (List.length s) <= m)%Z) ->
  In s (subsets_in_order cards mps).
Proof.
  intros Hsub H1 Hm. unfold subsets_in_order. apply in_flat_map.
  exists (List.length s). split; [|now apply subseq_in_combinations].
  apply in_seq. pose proof (subseq_length s cards Hsub) as Hlen.
  assert (Z.of_nat (List.length s) <= max_r (List.length cards) mps)%Z.
  { unfold max_r. destruct mps as [m|]; [specialize (Hm m eq_refl)|]; lia. }
  lia.
Qed.

(** X13: the search is exhaustive over the candidates.  Every selection of
    at least one and at most [max_portfolio_size] candidate cards, taken in
    candidate order, was evaluated without error and nets no more than the
    value returned; and the portfolio returned is itself such a selection,
    so it never holds a candidate twice. *)
Theorem find_best_portfolio_is_exhaustive :
  forall (catalog : list Card) (annual_spending : SpendingProfile) (rebate_usage : RebateUsage)
         (max_cards max_portfolio_size : option Z) (include_rebates include_offers : bool)
         (res : SearchResult),
    find_best_portfolio catalog annual_spending rebate_usage max_cards max_portfolio_size
                        include_rebates include_offers = Py.Ok res ->
    let cands := cards_to_consider catalog annual_spending max_cards
                                   include_rebates include_offers in
    let usage := if include_rebates then rebate_usage else [] in
    (forall s,
        subseq s cands ->
        (1 <= List.length s)%nat ->
        (forall m, max_portfolio_size = Some m -> (Z.of_nat (List.length s) <= m)%Z) ->
        exists ev, evaluate_portfolio s annual_spending usage = Py.Ok ev /\
                   total_net ev <= best_val res) /\
    (forall P, best_portfolio res = Some P -> subseq P cands).
Proof.
  intros catalog sp ru mc mps ir io res Hres cands usage.
  unfold find_best_portfolio in Hres. fold cands usage in Hres.
  destruct (search_loop_spec sp usage _ _ _ Hres) as [Hall [_ Hcase]].
  split.
  - intros s Hsub H1 Hm. apply Hall. now apply subseq_in_subsets.
  - intros P HP.
    destruct Hcase as [-> | [pre [P' [post [ev [Hsplit [_ [Hr _]]]]]]]]; [discriminate|].
    rewrite Hr in HP. injection HP as <-.
    assert (Hin : In P' (subsets_in_order cands mps))
      by (rewrite Hsplit; apply in_or_app; right; now left).
    unfold subsets_in_order in Hin. apply in_flat_map in Hin.
    destruct Hin as [r [_ Hin]]. now apply (combinations_subseq cands r).
Qed.

Lemma find_best_portfolio_is_exhaustive_witness :
  exists ev,
    evaluate_portfolio [basic_card; dining_card] [("dining", 12000 # 1)] [] = Py.Ok ev /\
    total_net ev <= 0 + (3 # 1) * (12000 # 1) * (1 # 100) + 0 - (0 + (95 # 1)).
Proof.
  destruct (find_best_portfolio_is_exhaustive
              [basic_card; dining_card] [("dining", 12000 # 1)] [] None None true true
              (mkSearch (Some [dining_card])
                        (0 + (3 # 1) * (12000 # 1) * (1 # 100) + 0 - (0 + (95 # 1)))
                        [("dining", (Some "Diner", (3 # 1) * (12000 # 1) * (1 # 100)))]
                        [("Diner", [])]
                        (0 + (3 # 1) * (12000 # 1) * (1 # 100)) (0 + (95 # 1))))
    as [H _].
  - reflexivity.
  - apply (H [basic_card; dining_card]).
    + repeat constructor.
    + simpl. lia.
    + discriminate.
Defined.

Lemma search_loop_app (sp : SpendingProfile) (u : RebateUsage) (l1 l2 : list (list Card)) :
  forall best,
    search_loop sp u best (l1 ++ l2)
    = (best' <- search_loop sp u best l1 ;; search_loop sp u best' l2).
Proof.
  induction l1 as [|s l1 IH]; intro best; [reflexivity|].
  cbn [app search_loop].
  destruct (search_step sp u best s) as [b|e]; cbn [Py.bind]; [apply IH | reflexivity].
Qed.

Lemma subsets_in_order_prefix (cards : list Card) (mps1 mps2 : option Z) :
  (max_r (List.length cards) mps1 <= max_r (List.length cards) mps2)%Z ->
  exists rest, subsets_in_order cards mps2 = subsets_in_order cards mps1 ++ rest.
Proof.
  intro H. unfold subsets_in_order.
  set (a := Z.to_nat (max_r (List.length cards) mps1)).
  set (b := Z.to_nat (max_r (List.length cards) mps2)).
  assert (Hab : (a <= b)%nat) by (unfold a, b; lia).
  replace b with (a + (b - a))%nat by lia.
  rewrite seq_app, flat_map_app. eexists. reflexivity.
Qed.

Lemma max_r_monotone (n : nat) (mps1 mps2 : option Z) :
  size_limit_le mps1 mps2 -> (max_r n mps1 <= max_r n mps2)%Z.
Proof.
  unfold size_limit_le, max_r. destruct mps2 as [m2|]; destruct mps1 as [m1|]; lia.
Qed.

(** X14: a looser size limit can only help: if the search returns under
    the looser limit, it returns under the tighter one as well, with a best
    value that is no larger.  The subsets tried under the tighter limit are
    the first ones tried under the looser. *)
Theorem find_best_portfolio_monotone_in_size_limit :
  forall (catalog : list Card) (annual_spending : SpendingProfile) (rebate_usage : RebateUsage)
         (max_cards tighter looser : option Z) (include_rebates include_offers : bool)
         (res : SearchResult),
    size_limit_le tighter looser ->
    find_best_portfolio catalog annual_spending rebate_usage max_cards looser
                        include_rebates include_offers = Py.Ok res ->
    exists res',
      find_best_portfolio catalog annual_spending rebate_usage max_cards tighter
                          include_rebates include_offers = Py.Ok res' /\
      best_val res' <= best_val res.
Proof.
  intros catalog sp ru mc mps1 mps2 ir io res Hle Hres.
  unfold find_best_portfolio in *.
  set (cands := cards_to_consider catalog sp mc ir io) in *.
  set (usage := if ir then ru else []) in *.
  destruct (subsets_in_order_prefix cands mps1 mps2 (max_r_monotone _ _ _ Hle)) as [rest Hrest].
  rewrite Hrest, search_loop_app in Hres.
  destruct (search_loop sp usage initial_best (subsets_in_order cands mps1)) as [res'|e];
    [|discriminate].
  cbn [Py.bind] in Hres. exists res'. split; [reflexivity|].
  now destruct (search_loop_spec sp usage _ _ _ Hres) as [_ [H _]].
Qed.

Lemma find_best_portfolio_monotone_in_size_limit_witness :
  exists res',
    find_best_portfolio [basic_card; dining_card] [("dining", 12000 # 1)] [] None (Some 1%Z)
                        true true = Py.Ok res' /\
    best_val res' <= 0 + (3 # 1) * (12000 # 1) * (1 # 100) + 0 - (0 + (95 # 1)).
Proof.
  apply (find_best_portfolio_monotone_in_size_limit
           [basic_card; dining_card] [("dining", 12000 # 1)] [] None (Some 1%Z) None true true
           (mkSearch (Some [dining_card])
                     (0 + (3 # 1) * (12000 # 1) * (1 # 100) + 0 - (0 + (95 # 1)))
                     [("dining", (Some "Diner", (3 # 1) * (12000 # 1) * (1 # 100)))]
                     [("Diner", [])]
                     (0 + (3 # 1) * (12000 # 1) * (1 # 100)) (0 + (95 # 1)))).
  - exact I.
  - reflexivity.
Defined.

Lemma combinations_count {A} (l : list A) :
  forall r, List.length (Py.combinations l r) = binom (List.length l) r.
Proof.
  induction l as [|x l IH]; intro r; destruct r; try reflexivity.
  cbn [Py.combinations List.length binom].
  now rewrite length_app, length_map, !IH.
Qed.

Lemma binom_step (n r : nat) : (binom n r <= binom (S n) r)%nat.
Proof. destruct r; destruct n; cbn [binom]; lia. Qed.

Lemma binom_monotone (n n' r : nat) : (n <= n')%nat -> (binom n r <= binom n' r)%nat.
Proof.
  induction 1 as [|m _ IH]; [lia|].
  pose proof (binom_step m r). lia.
Qed.

Lemma flat_map_count {A B} (f : A -> list B) (l : list A) :
  List.length (flat_map f l) = list_sum (map (fun a => List.length (f a)) l).
Proof.
  induction l as [|a l IH]; [reflexivity|].
  simpl. now rewrite length_app, IH.
Qed.

Lemma list_sum_map_le {A} (f g : A -> nat) (l : list A) :
  (forall a, (f a <= g a)%nat) -> (list_sum (map f l) <= list_sum (map g l))%nat.
Proof.
  intro H. induction l as [|a l IH]; simpl; [lia|].
  specialize (H a). lia.
Qed.

Lemma subsets_in_order_count (cards : list Card) (mps : option Z) :
  List.length (subsets_in_order cards mps)
  = list_sum (map (binom (List.length cards))
                  (seq 1 (Z.to_nat (max_r (List.length cards) mps)))).
Proof.
  unfold subsets_in_order. rewrite flat_map_count. f_equal.
  apply map_ext. intro r. apply combinations_count.
Qed.

Lemma cards_to_consider_length (catalog : list Card) (sp : SpendingProfile)
      (n : Z) (ir io : bool) :
  (0 <= n)%Z ->
  (List.length (cards_to_consider catalog sp (Some n) ir io) <= Z.to_nat n)%nat.
Proof.
  intro H0. destruct (Z_lt_le_dec n (Z.of_nat (List.length catalog))) as [Hlt | Hge].
  - destruct (cards_to_consider_top catalog sp n ir io) as [_ [_ [_ [_ [_ Hlen]]]]]; lia.
  - rewrite cards_to_consider_full; [lia|].
    intros n' Hn'. injection Hn' as <-. exact Hge.
Qed.

(** X15: the search evaluates one portfolio per selection: with [n]
    candidates and sizes up to [k] that is the sum of the binomial
    coefficients C(n, 1) ... C(n, k).  Under the default limits of 16
    candidates and 4 cards this is never more than 2516 evaluations,
    however large the catalog. *)
Theorem search_evaluates_at_most_2516_portfolios :
  (forall (cards : list Card) (max_portfolio_size : option Z),
      List.length (subsets_in_order cards max_portfolio_size)
      = list_sum (map (binom (List.length cards))
                      (seq 1 (Z.to_nat (max_r (List.length cards) max_portfolio_size))))) /\
  (forall (catalog : list Card) (annual_spending : SpendingProfile)
          (include_rebates include_offers : bool),
      (List.length
         (subsets_in_order
            (cards_to_consider catalog annual_spending (Some MAX_CARDS_TO_CONSIDER)
                               include_rebates include_offers)
            (Some MAX_PORTFOLIO_SIZE))
       <= 2516)%nat).
Proof.
  split; [apply subsets_in_order_count|].
  intros catalog sp ir io. rewrite subsets_in_order_count.
  set (cands := cards_to_consider catalog sp (Some MAX_CARDS_TO_CONSIDER) ir io).
  assert (Hn : (List.length cands <= 16)%nat).
  { pose proof (cards_to_consider_length catalog sp MAX_CARDS_TO_CONSIDER ir io) as H.
    unfold MAX_CARDS_TO_CONSIDER in H. fold cands in H.
    change (Z.to_nat 16) with 16%nat in H. apply H. lia. }
  set (k := Z.to_nat (max_r (List.length cands) (Some MAX_PORTFOLIO_SIZE))).
  assert (Hk : (k <= 4)%nat) by (unfold k, max_r, MAX_PORTFOLIO_SIZE; lia).
  apply Nat.le_trans with (list_sum (map (binom 16) (seq 1 k))).
  - apply list_sum_map_le. intro r. now apply binom_monotone.
  - assert (H4 : list_sum (map (binom 16) (seq 1 4)) = 2516%nat) by reflexivity.
    rewrite <- H4.
    assert (Hsplit : seq 1 4 = seq 1 k ++ seq (1 + k) (4 - k)).
    { rewrite <- seq_app. f_equal. lia. }
    rewrite Hsplit, map_app, list_sum_app. lia.
Qed.

(* ------------------------------------------------------------------ *)
(** ** What the search returns *)

Lemma Qsum_nonneg {A} (f : A -> Q) (l : list A) :
  (forall a, In a l -> 0 <= f a) -> 0 <= Qsum (map f l).
Proof.
  induction l as [|x l IH]; intro H; cbn [map Qsum]; [lra|].
  assert (0 <= f x) by (apply H; now left).
  assert (0 <= Qsum (map f l)) by (apply IH; intros a Ha; apply H; now right).
  lra.
Qed.




(* ------------------------------------------------------------------ *)
(** ** The best card of a category, and the assignment table *)

Lemma best_fold_spec (cat : string) (spend : Q) (cards : list Card) :
  forall b,
    let res := fold_left (best_step cat spend) cards b in
    (forall c, In c cards -> card_value c cat spend <= fst res) /\
    fst b <= fst res /\
    (res = b \/
     exists pre c post,
       cards = pre ++ c :: post /\
       res = (card_value c cat spend, Some (name c)) /\
       fst b < card_value c cat spend /\
       (forall c', In c' pre -> card_value c' cat spend < card_value c cat spend)).
Proof.
  induction cards as [|x cards IH]; intro b; cbn [fold_left].
  - split; [intros c []|]. split; [lra | now left].
  - destruct (IH (best_step cat spend b x)) as [Hall [Hle Hcase]].
    assert (Hb : fst b <= fst (best_step cat spend b x) /\
                 card_value x cat spend <= fst (best_step cat spend b x)).
    { unfold best_step. case_Qltb (fst b) (card_value x cat spend) E; cbn [fst]; lra. }
    destruct Hb as [Hb1 Hb2].
    split; [|split].
    + intros c [<- | Hc]; [lra | now apply Hall].
    + lra.
    + destruct Hcase as [Hsame | [pre [c [post [Hsplit [Hr [Hlt Hpre]]]]]]].
      * rewrite Hsame. unfold best_step.
        case_Qltb (fst b) (card_value x cat spend) E; [|now left].
        right. exists [], x, cards.
        split; [reflexivity|]. split; [reflexivity|]. split; [exact E|]. intros c' [].
      * right. exists (x :: pre), c, post.
        split; [now rewrite Hsplit|]. split; [exact Hr|]. split; [lra|].
        intros c' [<- | Hc']; [lra | now apply Hpre].
Qed.

(** X17: the card assigned to a category is the first card of the
    portfolio that attains the largest value on it, provided that value is
    positive: every earlier card earns strictly less and no later card
    earns more.  When no card earns a positive value the category is
    assigned to no card and valued 0. *)
Theorem best_card_is_first_maximum :
  forall (cards : list Card) (cat : string) (spend : Q),
    match snd (best_card_for cards cat spend) with
    | None =>
        fst (best_card_for cards cat spend) = 0 /\
        (forall c, In c cards -> card_value c cat spend <= 0)
    | Some nm =>
        0 < fst (best_card_for cards cat spend) /\
        exists pre c post,
          cards = pre ++ c :: post /\
          name c = nm /\
          card_value c cat spend = fst (best_card_for cards cat spend) /\
          (forall c', In c' pre -> card_value c' cat spend < card_value c cat spend) /\
          (forall c', In c' post -> card_value c' cat spend <= card_value c cat spend)
    end.
Proof.
  intros cards cat spend. unfold best_card_for.
  destruct (best_fold_spec cat spend cards (0, None)) as [Hall [_ Hcase]].
  destruct Hcase as [Hsame | [pre [c [post [Hsplit [Hr [Hlt Hpre]]]]]]].
  - rewrite Hsame in *. cbn [fst snd] in *. auto.
  - rewrite Hr in *. cbn [fst snd] in *. split; [exact Hlt|].
    exists pre, c, post. repeat split; auto.
    intros c' Hc'. apply Hall. rewrite Hsplit. apply in_or_app. right. now right.
Qed.

Lemma reward_loop_table (cards : list Card) (sp : SpendingProfile) :
  NoDup (Py.keys sp) ->
  snd (reward_loop cards sp)
  = map (fun cs : string * Q =>
           (fst cs, (snd (best_card_for cards (fst cs) (snd cs)),
                     fst (best_card_for cards (fst cs) (snd cs))))) sp.
Proof.
  induction sp as [|[k s] sp IH] using rev_ind; intro Hnd; [reflexivity|].
  unfold Py.keys in Hnd. rewrite map_app in Hnd. cbn [map fst] in Hnd.
  assert (Hk : Py.get sp k = None).
  { apply get_None_not_key. intro Hin.
    apply NoDup_remove_2 in Hnd. rewrite app_nil_r in Hnd. contradiction. }
  apply NoDup_remove_1 in Hnd. rewrite app_nil_r in Hnd.
  rewrite (reward_loop_extend cards sp k s Hk). cbn [snd].
  rewrite (IH Hnd), map_app. reflexivity.
Qed.

(** X18: for a profile with distinct keys, the assignment table has one row
    per category of the profile, in the profile's order, holding the best
    card and best value of that category, and [total_rewards] is the sum of
    the values in the table. *)
Theorem assignment_table_matches_total_rewards :
  forall (cards : list Card) (annual_spending : SpendingProfile) (rebate_usage : RebateUsage)
         (ev : Evaluation),
    NoDup (Py.keys annual_spending) ->
    evaluate_portfolio cards annual_spending rebate_usage = Py.Ok ev ->
    assignment ev
    = map (fun cs : string * Q =>
             (fst cs, (snd (best_card_for cards (fst cs) (snd cs)),
                       fst (best_card_for cards (fst cs) (snd cs))))) annual_spending /\
    Py.keys (assignment ev) = Py.keys annual_spending /\
    total_rewards ev == Qsum (map (fun row => snd (snd row)) (assignment ev)).
Proof.
  intros cards sp ru ev Hnd Hev. unfold evaluate_portfolio in Hev.
  destruct (apply_rebates cards sp ru) as [rb|e]; [|discriminate].
  cbn [Py.bind] in Hev. injection Hev as <-. cbn [assignment total_rewards].
  rewrite (reward_loop_table cards sp Hnd).
  split; [reflexivity|]. split.
  - unfold Py.keys. rewrite map_map. reflexivity.
  - unfold reward_loop. rewrite reward_fold_total, map_map. cbn [fst snd]. lra.
Qed.

Lemma assignment_table_matches_total_rewards_witness :
  Py.keys [("dining", (Some "Diner", (3 # 1) * (12000 # 1) * (1 # 100)))]
  = Py.keys [("dining", 12000 # 1)].
Proof.
  destruct (assignment_table_matches_total_rewards
              [dining_card] [("dining", 12000 # 1)] []
              (mkEval (0 + (3 # 1) * (12000 # 1) * (1 # 100) + 0 - (0 + (95 # 1)))
                      [("dining", (Some "Diner", (3 # 1) * (12000 # 1) * (1 # 100)))]
                      [("Diner", [])]
                      (0 + (3 # 1) * (12000 # 1) * (1 # 100)) (0 + (95 # 1)) 0))
    as [_ [H _]].
  - repeat constructor. simpl. tauto.
  - reflexivity.
  - exact H.
Defined.






(* ------------------------------------------------------------------ *)
(** ** The approximate score against the evaluator *)

Lemma first_reward_skip (rw : Py.dict Q) (pre post : list string) :
  (forall k, In k pre -> Py.get rw k = None) ->
  first_reward rw (pre ++ post) = first_reward rw post.
Proof.
  induction pre as [|k pre IH]; intro H; [reflexivity|].
  cbn [app first_reward]. rewrite (H k) by now left.
  apply IH. intros k' Hk'. apply H. now right.
Qed.

Lemma first_reward_only_all (rw : Py.dict Q) (cat : string) (ks : list string) :
  Py.get rw cat = None ->
  (forall k, In k ks -> k <> cat -> k <> "all" -> Py.get rw k = None) ->
  first_reward rw ks
  = if existsb (String.eqb "all") ks then Py.get rw "all" else None.
Proof.
  intros Hcat. induction ks as [|k ks IH]; intro H; [reflexivity|].
  cbn [first_reward existsb].
  assert (IH' : first_reward rw ks
                = if existsb (String.eqb "all") ks then Py.get rw "all" else None)
    by (apply IH; intros k' Hk'; apply H; now right).
  destruct (String.eqb "all" k) eqn:Ea; cbn [orb].
  - apply String.eqb_eq in Ea. subst k.
    destruct (Py.get rw "all") as [r|] eqn:E; [reflexivity|].
    rewrite IH'. destruct (existsb (String.eqb "all") ks); reflexivity.
  - apply String.eqb_neq in Ea.
    destruct (String.eqb k cat) eqn:Ec.
    + apply String.eqb_eq in Ec. subst k. now rewrite Hcat.
    + apply String.eqb_neq in Ec.
      rewrite (H k) by (try (now left); congruence). exact IH'.
Qed.

Lemma keys_to_try_has_all (cat : string) : existsb (String.eqb "all") (keys_to_try cat) = true.
Proof.
  unfold keys_to_try. rewrite existsb_app. cbn [existsb]. rewrite String.eqb_refl.
  now rewrite orb_true_r.
Qed.

Lemma keys_to_try_own_first (cat : string) :
  In cat categories -> exists rest, keys_to_try cat = cat :: rest.
Proof.
  intro H. simpl in H.
  repeat (destruct H as [<- | H]; [eexists; reflexivity|]).
  contradiction.
Qed.

Lemma approx_rate_all (rw : Py.dict Q) (cat : string) :
  approx_rate rw cat
  = match Py.get rw cat with
    | Some rate => rate
    | None => or_default (Py.get rw "all") 1
    end.
Proof.
  unfold approx_rate. destruct (Py.get rw cat) as [r|] eqn:E; [reflexivity|].
  cbn [first_reward]. rewrite E. destruct (Py.get rw "all"); reflexivity.
Qed.

(** X20: on a canonical category the rate used by the approximate scorer is
    the resolver's rate whenever the card has a key for the category
    itself, or has none of the category's other aliases.  Otherwise the two
    can differ: the scorer does not know the aliases, so a card that pays 4x
    on [restaurants] and 2x on [all] is scored at 2x on dining where the
    resolver gives 4x. *)
Theorem approx_rate_agrees_without_aliases :
  (forall (card : Card) (cat : string),
      In cat categories ->
      (Py.get (rewards card) cat <> None \/
       forall k, In k (keys_to_try cat) -> k <> cat -> k <> "all" ->
                 Py.get (rewards card) k = None) ->
      approx_rate (rewards card) cat = get_reward_rate card cat) /\
  (approx_rate (rewards plain_card) "dining" = 2 # 1 /\
   get_reward_rate plain_card "dining" = 4 # 1).
Proof.
  split; [|split; reflexivity].
  intros card cat Hcat Hkeys.
  rewrite approx_rate_all. unfold get_reward_rate.
  destruct (Py.get (rewards card) cat) as [r|] eqn:E.
  - destruct (keys_to_try_own_first cat Hcat) as [rest ->].
    cbn [first_reward]. now rewrite E.
  - destruct Hkeys as [Hown | Hnone]; [congruence|].
    rewrite (first_reward_only_all (rewards card) cat (keys_to_try cat) E Hnone).
    rewrite keys_to_try_has_all. destruct (Py.get (rewards card) "all"); reflexivity.
Qed.

Lemma approx_rate_agrees_without_aliases_witness :
  approx_rate (rewards dining_card) "dining" = get_reward_rate dining_card "dining".
Proof.
  destruct approx_rate_agrees_without_aliases as [H _].
  apply H.
  - simpl. tauto.
  - left. discriminate.
Defined.








(* ------------------------------------------------------------------ *)
(** ** Bounds on the ledger *)

Lemma greedy_walk_bounds (items : list CategoryItem) :
  forall f,
    (forall k, 0 <= f k) ->
    (forall it, In it items -> 0 <= item_amount it) ->
    forall it u, In (it, u) (greedy_walk f items) -> 0 <= u /\ u <= item_amount it.
Proof.
  induction items as [|x items IH]; intros f Hf Hamt it u Hin; [contradiction|].
  cbn [greedy_walk] in Hin. destruct Hin as [Heq | Hin].
  - injection Heq as <- <-. split; [|apply Q.le_min_r].
    apply Q.min_glb; [apply Hf | apply Hamt; now left].
  - eapply IH; [| |exact Hin].
    + intro k. unfold deplete. destruct (String.eqb k (item_cat x)) eqn:E; [|apply Hf].
      apply String.eqb_eq in E. subst k.
      pose proof (Q.le_min_l (f (item_cat x)) (item_amount x)). lra.
    + intros it' Hit'. apply Hamt. now right.
Qed.

Lemma spend_of_nonneg (sp : SpendingProfile) :
  (forall k v, In (k, v) sp -> 0 <= v) -> forall k, 0 <= spend_of sp k.
Proof.
  intros H k. unfold spend_of. destruct (Py.get sp k) as [v|] eqn:E; cbn [or_default]; [|lra].
  apply get_In in E. now apply (H k).
Qed.

(** X22: when no spend and no rebate amount is negative, every ledger entry
    has [0 <= used <= amount]; a category entry is marked applied exactly
    when it used something, a flat entry used its whole amount if it is
    marked applied and nothing otherwise; and the rebate total is not
    negative. *)
Theorem ledger_entries_within_bounds :
  forall (cards : list Card) (annual_spending : SpendingProfile) (rebate_usage : RebateUsage)
         (total : Q) (details : Ledger),
    (forall k v, In (k, v) annual_spending -> 0 <= v) ->
    (forall c r, In c cards -> In r (rebates c) -> rebate_amount_nonneg r) ->
    apply_rebates cards annual_spending rebate_usage = Py.Ok (total, details) ->
    (forall nm e,
        In (nm, e) (ledger_entries details) ->
        0 <= used e /\ used e <= amount e /\
        (is_category e = true -> (applied e = true <-> 0 < used e)) /\
        (is_category e = false -> used e = if applied e then amount e else 0)) /\
    0 <= total.
Proof.
  intros cards sp ru t d Hsp Hamt Happ.
  destruct (apply_rebates_ok_inv _ _ _ _ _ Happ) as [Ht Hd].
  set (walk := greedy_walk (spend_of sp) (sorted_category_rebates cards)) in *.
  assert (Hitems : forall it, In it (sorted_category_rebates cards) -> 0 <= item_amount it).
  { intros it Hit. unfold sorted_category_rebates in Hit. apply sort_by_In in Hit.
    apply gather_category_rebates_spec in Hit. destruct Hit as [Hc Hnth].
    apply nth_error_In in Hnth. apply (Hamt _ _ Hc Hnth). }
  assert (Hwalk : forall it u, In (it, u) walk -> 0 <= u /\ u <= item_amount it).
  { apply greedy_walk_bounds; [now apply spend_of_nonneg | exact Hitems]. }
  assert (Hflat : forall nm e, In (nm, e) (flat_entries ru cards) ->
             exists c i amt ds, In c cards /\ In (FlatRebate amt ds) (rebates c) /\
                                e = flat_entry ru (name c) i amt ds).
  { intros nm e He. unfold flat_entries in He. apply in_flat_map in He.
    destruct He as [c [Hc He]]. unfold card_flat_entries in He.
    apply in_flat_map in He. destruct He as [[i r] [Hir He]]. cbn [fst snd] in He.
    destruct r; try contradiction. destruct He as [Heq | []]. injection Heq as _ <-.
    apply enumerate_In in Hir. apply nth_error_In in Hir.
    exists c, i, amount0, description0. auto. }
  split.
  - intros nm e He.
    apply (Permutation_in _ Hd) in He. apply in_app_or in He. destruct He as [He | He].
    + unfold walk_entries in He. apply in_map_iff in He. destruct He as [[it u] [Heq Hin]].
      injection Heq as _ <-. destruct (Hwalk it u Hin) as [H0 H1].
      cbn [category_entry used amount applied is_category fst snd].
      split; [exact H0|]. split; [exact H1|]. split; [|discriminate].
      intros _. apply Qltb_true.
    + destruct (Hflat nm e He) as [c [i [amt [ds [Hc [Hr ->]]]]]].
      pose proof (Hamt c _ Hc Hr) as Ha. cbn in Ha.
      cbn [flat_entry used amount applied is_category].
      destruct (usage_flag ru (name c) i).
      * split; [exact Ha|]. split; [lra|]. split; [discriminate | reflexivity].
      * split; [lra|]. split; [exact Ha|]. split; [discriminate | reflexivity].
  - rewrite Ht.
    assert (0 <= Qsum (map snd walk)).
    { apply Qsum_nonneg. intros [it u] Hin. now apply (Hwalk it u). }
    assert (0 <= flat_credit ru cards).
    { rewrite <- flat_entries_used. apply Qsum_nonneg. intros [nm e] He.
      destruct (Hflat nm e He) as [c [i [amt [ds [Hc [Hr ->]]]]]].
      pose proof (Hamt c _ Hc Hr) as Ha. cbn in Ha.
      cbn [snd flat_entry used]. destruct (usage_flag ru (name c) i); lra. }
    lra.
Qed.

Lemma ledger_entries_within_bounds_witness :
  0 <= 350 # 1.
Proof.
  destruct (ledger_entries_within_bounds
              [first_diner; second_diner; credit_card] dining_250 [] (350 # 1)
              [("First", [mkEntry 0 "Category Rebate" true (250 # 1) (300 # 1) true]);
               ("Second", [mkEntry 0 "Category Rebate" true 0 (300 # 1) false]);
               ("Credit", [mkEntry 0 "Flat Rebate" false (100 # 1) (100 # 1) true])])
    as [_ H].
  - intros k v Hin. simpl in Hin.
    repeat (destruct Hin as [Heq | Hin]; [injection Heq as _ <-; discriminate|]).
    contradiction.
  - intros c r [<- | [<- | [<- | []]]] [<- | []]; simpl; discriminate.
  - reflexivity.
  - exact H.
Defined.
